(** * Verification of the C++ template generator

    A shallow embedding of [onlinejudge_template/library/cplusplus.py]
    (statement emitter, indentation engine, signature builder) and of the
    template loop of [onlinejudge_contest/main.py] ([prepare_problem]),
    followed by the properties stated about them. *)

From Stdlib Require Import ZArith Ascii String.
From stdpp Require Import gmap strings list.

Local Open Scope Z_scope.
#[local] Set Warnings "-clear-no-such-hyp".

(** ** Python values, exceptions and results *)

(** The values a style option can hold.  A callable is a hook that receives
    its positional arguments as a list of texts and returns a text: hooks are
    taken to be pure and total, as the option tables describe them.  A hook
    that raises, or returns something else than a text, is not modelled; a
    statement that lists every failure says so when it leaves hooks out. *)
Inductive pyval : Type :=
| VNone
| VBool (b : bool)
| VInt (z : Z)
| VStr (s : string)
| VCallable (f : list string → string).

(** The exceptions that the modelled code can raise or handle. *)
Inductive exn : Type :=
| AssertionError
| TypeError
| KeyError (key : string)
| NotImplementedError
| AnalyzerError
| OtherError (what : string).

Inductive result (A : Type) : Type :=
| Ok (a : A)
| Raise (e : exn).
Arguments Ok {A} a.
Arguments Raise {A} e.

(** [result] is the error monad of the modelled code: [x ← r; k] runs [k]
    when [r] returned and propagates the exception otherwise. *)
#[global] Instance result_ret : MRet result := λ A a, Ok a.
#[global] Instance result_bind : MBind result := λ A B k r,
  match r with
  | Ok a => k a
  | Raise e => Raise e
  end.

Definition exn_eqb (e1 e2 : exn) : bool :=
  match e1, e2 with
  | AssertionError, AssertionError => true
  | TypeError, TypeError => true
  | KeyError k1, KeyError k2 => String.eqb k1 k2
  | NotImplementedError, NotImplementedError => true
  | AnalyzerError, AnalyzerError => true
  | OtherError w1, OtherError w2 => String.eqb w1 w2
  | _, _ => false
  end.

(** Python truthiness, [isinstance(v, str)] and [callable(v)]. *)
Definition truthy (v : pyval) : bool :=
  match v with
  | VNone => false
  | VBool b => b
  | VInt z => negb (z =? 0)
  | VStr s => negb (String.eqb s "")
  | VCallable _ => true
  end.

Definition py_str_eq (v : pyval) (s : string) : bool :=
  match v with
  | VStr t => String.eqb t s
  | _ => false
  end.

(** ** Texts *)

Definition dquote : string := String (ascii_of_nat 34) EmptyString.
Definition newline : string := String (ascii_of_nat 10) EmptyString.

(** [line.startswith(p)] and [line.endswith(p)]. *)
Definition startswith (line p : string) : bool := String.prefix p line.

Fixpoint endswith (line p : string) : bool :=
  String.eqb line p ||
  match line with
  | EmptyString => false
  | String _ rest => endswith rest p
  end.

(** [sep.join(parts)]. *)
Fixpoint join (sep : string) (parts : list string) : string :=
  match parts with
  | [] => ""
  | [p] => p
  | p :: rest => p +:+ sep +:+ join sep rest
  end.

(** [text * n]: no copy at all when [n] is zero or negative. *)
Definition str_mul (text : string) (n : Z) : string :=
  Nat.iter (Z.to_nat n) (String.append text) "".

(** ** The format tree and the data handed to the emitters *)

(** Modelled from the spec: the node classes of [onlinejudge_template.types],
    which is not among the sources.  The four variants and their fields are
    the ones the traversal dispatches on and reads ([name], [indices],
    [items], [name], [size], [body]); index and size expressions are
    texts. *)
#[warnings="-register-all"]
Inductive FormatNode : Type :=
| ItemNode (name : string) (indices : list string)
| NewlineNode
| SequenceNode (items : list FormatNode)
| LoopNode (name : string) (size : string) (body : FormatNode).

(** [data]: the input tree and the style configuration, a dictionary from
    option names to values. *)
Record Data : Type := mkData {
  input : FormatNode;
  config : gmap string pyval
}.

(** [data['config'].get(key)] and [data['config'].get(key, default)]. *)
Definition config_get (data : Data) (key : string) : pyval :=
  default VNone (config data !! key).

Definition config_get_default (data : Data) (key : string) (d : pyval) : pyval :=
  default d (config data !! key).

(** ** Statement emitter: scalar strategies *)

Definition _get_std (data : Data) : string :=
  if truthy (config_get_default data "using_namespace_std" (VBool true))
  then ""
  else "std::".

Definition _declare_loop (var size : string) (data : Data) : result string :=
  let rep := config_get data "rep_macro" in
  match rep with
  | VNone =>
      Ok ("for (int " +:+ var +:+ " = 0; " +:+ var +:+ " < " +:+ size
          +:+ "; ++" +:+ var +:+ ")")
  | VStr rep => Ok (rep +:+ " (" +:+ var +:+ ", " +:+ size +:+ ")")
  | VCallable rep => Ok (rep [var; size])
  | _ => Raise AssertionError
  end.

Definition _read_int (var : string) (data : Data) : result string :=
  let scanner := config_get data "scanner" in
  match scanner with
  | VNone => Ok ("scanf(" +:+ dquote +:+ "%d" +:+ dquote +:+ ", &" +:+ var +:+ ");")
  | _ =>
    if py_str_eq scanner "scanf" then
      Ok ("scanf(" +:+ dquote +:+ "%d" +:+ dquote +:+ ", &" +:+ var +:+ ");")
    else if py_str_eq scanner "cin" || py_str_eq scanner "std::cin" then
      Ok (_get_std data +:+ "cin >> " +:+ var +:+ ";")
    else
      match scanner with
      | VCallable scanner => Ok (scanner [var])
      | _ => Raise AssertionError
      end
  end.

Definition _write_int (var : string) (data : Data) : result string :=
  let printer := config_get data "printer" in
  match printer with
  | VNone => Ok ("printf(" +:+ dquote +:+ "%d\n" +:+ dquote +:+ ", &" +:+ var +:+ ");")
  | _ =>
    if py_str_eq printer "scanf" then
      Ok ("printf(" +:+ dquote +:+ "%d\n" +:+ dquote +:+ ", &" +:+ var +:+ ");")
    else if py_str_eq printer "cout" || py_str_eq printer "std::cout" then
      Ok (_get_std data +:+ "cout << " +:+ var +:+ " << " +:+ _get_std data +:+ "endl;")
    else
      match printer with
      | VCallable printer => Ok (printer [var])
      | _ => Raise AssertionError
      end
  end.

(** [_declare_variable]: the loop over [reversed(dims)] updates the pair
    [(type, ctor)]. *)
Definition declare_step (data : Data) (acc : string * string) (dim : string)
  : string * string :=
  let '(type, ctor) := acc in
  (_get_std data +:+ "vector<" +:+ type +:+ ">",
   "(" +:+ dim +:+ ", " +:+ type +:+ "(" +:+ ctor +:+ "))").

Definition _declare_variable (name : string) (dims : list string) (data : Data)
  : string :=
  let '(type, ctor) := fold_left (declare_step data) (rev dims) ("int", "") in
  type +:+ " " +:+ name +:+ ctor +:+ ";".

(** ** Dimension table *)

(** A dictionary from variable names to size lists.  Python dictionaries keep
    insertion order and the signature builder iterates in that order, so the
    table is an association list with one entry per key. *)
Definition dict : Type := list (string * list string).

Fixpoint dict_lookup (key : string) (d : dict) : option (list string) :=
  match d with
  | [] => None
  | (k, v) :: rest => if String.eqb k key then Some v else dict_lookup key rest
  end.

(** Modelled from the spec: [common.list_used_items], whose module
    [onlinejudge_template.library.common] is not among the sources.  The
    traversal accumulates the sizes of the enclosing loops, outer to inner;
    the first [Item] met for a variable name records the accumulated list,
    later occurrences of that name change nothing. *)
Fixpoint _list_used_items_dfs (node : FormatNode) (sizes : list string)
    (table : dict) {struct node} : dict :=
  match node with
  | ItemNode name _ =>
      match dict_lookup name table with
      | Some _ => table
      | None => table ++ [(name, sizes)]
      end
  | NewlineNode => table
  | SequenceNode items =>
      fold_left (λ table item, _list_used_items_dfs item sizes table) items table
  | LoopNode _ size body => _list_used_items_dfs body (sizes ++ [size]) table
  end.

Definition list_used_items (node : FormatNode) : dict :=
  _list_used_items_dfs node [] [].

(** ** Generators *)

(** The run of a Python generator that is consumed to its end: the lines it
    yielded, in order, and how it stopped, by returning or by raising.  The
    lines yielded before an exception have already reached the consumer. *)
Definition Gen (L A : Type) : Type := list L * result A.

Definition gen_bind {L A B : Type} (g : Gen L A) (k : A → Gen L B) : Gen L B :=
  match g with
  | (ls, Ok a) => let '(ls', r) := k a in (ls ++ ls', r)
  | (ls, Raise e) => (ls, Raise e)
  end.

Definition yield {L : Type} (line : L) : Gen L () := ([line], Ok ()).

(** ** Statement emitter: the input-reading traversal *)

(** The indexed path [name[i][j]...] built by the loop over [node.indices]. *)
Definition indexed_path (name : string) (indices : list string) : string :=
  fold_left (λ var index, var +:+ "[" +:+ index +:+ "]") indices name.

(** [declared] is the set shared by the whole traversal; it is threaded
    through the calls and returned. *)
Fixpoint _read_input_dfs (node : FormatNode) (declared : gset string)
    (dims : dict) (data : Data) {struct node} : Gen string (gset string) :=
  match node with
  | ItemNode name indices =>
      let var := indexed_path name indices in
      let read := "scanf(" +:+ dquote +:+ "%d" +:+ dquote +:+ ", &" +:+ var +:+ ");" in
      if decide (name ∈ declared) then ([read], Ok declared)
      else
        let declared := {[name]} ∪ declared in
        match dict_lookup name dims with
        | None => ([], Raise (KeyError name))
        | Some ds => ([_declare_variable name ds data; read], Ok declared)
        end
  | NewlineNode => ([], Ok declared)
  | SequenceNode items =>
      (fix each (items : list FormatNode) (declared : gset string)
         : Gen string (gset string) :=
         match items with
         | [] => ([], Ok declared)
         | item :: rest =>
             gen_bind (_read_input_dfs item declared dims data) (each rest)
         end) items declared
  | LoopNode name size body =>
      match _declare_loop name size data with
      | Raise e => ([], Raise e)
      | Ok header =>
          gen_bind (yield (header +:+ " {")) (λ _,
          gen_bind (_read_input_dfs body declared dims data) (λ declared,
          gen_bind (yield "}") (λ _, ([], Ok declared))))
      end
  end.

(** What a yielded line is.  The kinds are ghost annotations: they are only
    used to state properties of the traversal, see [_read_input_dfs_traced]. *)
Inductive line_kind : Type :=
| Declaration (name : string)
| ScalarRead (name : string)
| LoopHeader
| LoopFooter.

Definition line_kind_eqb (k1 k2 : line_kind) : bool :=
  match k1, k2 with
  | Declaration a, Declaration b => String.eqb a b
  | ScalarRead a, ScalarRead b => String.eqb a b
  | LoopHeader, LoopHeader => true
  | LoopFooter, LoopFooter => true
  | _, _ => false
  end.

(** The traversal again, each yielded line paired with its kind.  Erasing
    the kinds gives [_read_input_dfs] back ([traced_erase]). *)
Fixpoint _read_input_dfs_traced (node : FormatNode) (declared : gset string)
    (dims : dict) (data : Data) {struct node}
  : Gen (line_kind * string) (gset string) :=
  match node with
  | ItemNode name indices =>
      let var := indexed_path name indices in
      let read := "scanf(" +:+ dquote +:+ "%d" +:+ dquote +:+ ", &" +:+ var +:+ ");" in
      if decide (name ∈ declared) then ([(ScalarRead name, read)], Ok declared)
      else
        let declared := {[name]} ∪ declared in
        match dict_lookup name dims with
        | None => ([], Raise (KeyError name))
        | Some ds =>
            ([(Declaration name, _declare_variable name ds data);
              (ScalarRead name, read)], Ok declared)
        end
  | NewlineNode => ([], Ok declared)
  | SequenceNode items =>
      (fix each (items : list FormatNode) (declared : gset string)
         : Gen (line_kind * string) (gset string) :=
         match items with
         | [] => ([], Ok declared)
         | item :: rest =>
             gen_bind (_read_input_dfs_traced item declared dims data) (each rest)
         end) items declared
  | LoopNode name size body =>
      match _declare_loop name size data with
      | Raise e => ([], Raise e)
      | Ok header =>
          gen_bind (yield (LoopHeader, header +:+ " {")) (λ _,
          gen_bind (_read_input_dfs_traced body declared dims data) (λ declared,
          gen_bind (yield (LoopFooter, "}")) (λ _, ([], Ok declared))))
      end
  end.

(** ** Indentation engine *)

(** [indent * nest + line]: only a text can be repeated and prepended to a
    text; any other value of the [indent] option is a type error. *)
Definition indent_line (indent : pyval) (nest : Z) (line : string) : result string :=
  match indent with
  | VStr unit => Ok (str_mul unit nest +:+ line)
  | _ => Raise TypeError
  end.

(** One iteration of the [for line in lines] loop, on the pair [(nest, buf)]. *)
Definition indent_step (indent : pyval) (st : Z * list string) (line : string)
  : result (Z * list string) :=
  let '(nest, buf) := st in
  let nest := if startswith line "}" then nest - 1 else nest in
  text ← indent_line indent nest line;
  let buf := buf ++ [text] in
  let nest := if endswith line "{" then nest + 1 else nest in
  Ok (nest, buf).

Fixpoint indent_loop (indent : pyval) (lines : list string) (st : Z * list string)
  : result (Z * list string) :=
  match lines with
  | [] => Ok st
  | line :: rest => st ← indent_step indent st line; indent_loop indent rest st
  end.

(** The parameter [nest] is overwritten by [nest = 1] before the loop.  The
    loop consumes the lines one at a time; an exception of the generator
    reaches it after the lines yielded before. *)
Definition _join_with_indent {A : Type} (lines : Gen string A) (nest : Z)
    (data : Data) : result string :=
  let indent := config_get_default data "indent" (VStr "    ") in
  let buf := [] in
  let nest := 1 in
  st ← indent_loop indent (fst lines) (nest, buf);
  _ ← snd lines;
  Ok (join newline (snd st)).

Definition read_input (data : Data) (nest : Z) : result string :=
  let dims := list_used_items (input data) in
  let lines := _read_input_dfs (input data) ∅ dims data in
  _join_with_indent lines nest data.

Definition write_output (data : Data) (nest : Z) : result string :=
  let lines := [] in
  line ← _write_int "ans" data;
  let lines := lines ++ [line] in
  _join_with_indent (lines, Ok ()) nest data.

(** ** Signature builder *)

Definition argument_type (data : Data) (dims : list string) : string :=
  let type :=
    fold_left (λ type _, _get_std data +:+ "vector<" +:+ type +:+ ">")
              (rev dims) "int" in
  match dims with
  | [] => type
  | _ :: _ => "const " +:+ type +:+ " &"
  end.

Definition arguments_types (data : Data) : string :=
  let decls :=
    map (λ '(name, dims), argument_type data dims +:+ " " +:+ name)
        (list_used_items (input data)) in
  join ", " decls.

Definition arguments (data : Data) : string :=
  let dims := list_used_items (input data) in
  join ", " (map fst dims).

Definition return_type (data : Data) : string := "auto".

(** ** Orchestration: the template loop of [prepare_problem] *)

Inductive log_record : Type :=
| LogError (what : string) (cause : option exn)
| LogInfo (what : string)
| LogDebug (what : string).

(** What the loop can change: the log and the files of the problem directory,
    keyed by destination name. *)
Record World : Type := mkWorld {
  logs : list log_record;
  files : gmap string string
}.

(** Effectful code of the orchestration layer: it transforms the world and
    returns or raises; what was logged or written before an exception stays. *)
Definition IO (A : Type) : Type := World → World * result A.

#[global] Instance io_ret : MRet IO := λ A a w, (w, Ok a).
#[global] Instance io_bind : MBind IO := λ A B k m w,
  match m w with
  | (w', Ok a) => k a w'
  | (w', Raise e) => (w', Raise e)
  end.

Definition io_raise {A : Type} (e : exn) : IO A := λ w, (w, Raise e).

Definition logger (r : log_record) : IO () :=
  λ w, (mkWorld (logs w ++ [r]) (files w), Ok ()).

Definition dest_exists (dest : string) : IO bool :=
  λ w, (w, Ok (bool_decide (is_Some (files w !! dest)))).

Definition write_file (dest : string) (code : string) : IO () :=
  λ w, (mkWorld (logs w) (<[dest := code]> (files w)), Ok ()).

Definition lift_result {A : Type} (r : result A) : IO A := λ w, (w, r).

(** [try: body except AnalyzerError/NotImplementedError as e: handler e]. *)
Definition try_except {A : Type} (body : IO A) (catches : exn → bool)
    (handler : exn → IO A) : IO A :=
  λ w, match body w with
       | (w', Raise e) => if catches e then handler e w' else (w', Raise e)
       | r => r
       end.

Section prepare_problem.

(** The collaborators of the loop: the two format-string extractors applied
    to the downloaded page, the format parser, and the generator entry
    point as it is called at the generation step, with the two nodes and
    the template name. *)
Variable parse_input_format_string : result string.
Variable parse_output_format_string : result string.
Variable parser_run : string → result FormatNode.
Variable generator_run :
  option FormatNode → option FormatNode → string → result string.

Definition analyzer_exn (e : exn) : bool :=
  exn_eqb e AnalyzerError || exn_eqb e NotImplementedError.

(** The [# analyze input] and [# analyze output] blocks: the node stays
    [None] when the analyzer raised one of the two handled exceptions. *)
Definition analyze (which : string) (format_string : result string)
  : IO (option FormatNode) :=
  try_except
    (text ← lift_result format_string;
     _ ← logger (LogDebug (which +:+ " format string"));
     node ← lift_result (parser_run text);
     mret (Some node))
    analyzer_exn
    (λ e, _ ← logger (LogError (which +:+ " analyzer failed") (Some e));
          mret None).

(** The body of [for dest_str, template in table.items()]. *)
Definition prepare_template (dest_str template : string) : IO () :=
  input_node ← analyze "input" parse_input_format_string;
  output_node ← analyze "output" parse_output_format_string;
  generated ←
    try_except
      (code ← lift_result (generator_run input_node output_node template);
       mret (Some code))
      (λ e, exn_eqb e NotImplementedError)
      (λ e, _ ← logger (LogError "generator failed" (Some e)); mret None);
  match generated with
  | None => mret ()
  | Some code =>
      present ← dest_exists dest_str;
      if present : bool then logger (LogError "file already exists" None)
      else
        _ ← logger (LogInfo "write file");
        write_file dest_str code
  end.

(** The loop [for dest_str, template in table.items()] of [prepare_problem].
    What surrounds it (the choice of the directory, the download of the
    page, the creation of parent directories, the download of the samples)
    is not modelled. *)
Fixpoint prepare_templates (table : list (string * string)) : IO () :=
  match table with
  | [] => mret ()
  | (dest_str, template) :: rest =>
      _ ← prepare_template dest_str template;
      prepare_templates rest
  end.

End prepare_problem.

(** [generator.run(input_format, *, template_file)] accepts one positional
    argument; the rendering of the template is a collaborator.  Any other
    number of positional arguments is a type error of the call. *)
Definition run (render : option FormatNode → string → result string)
    (positional : list (option FormatNode)) (template_file : string)
  : result string :=
  match positional with
  | [input_format] => render input_format template_file
  | _ => Raise TypeError
  end.

(** ** Notions used to state the properties *)

(** The variable names of the [Item] nodes, in traversal order. *)
Fixpoint item_names (node : FormatNode) : list string :=
  match node with
  | ItemNode name _ => [name]
  | NewlineNode => []
  | SequenceNode items => concat (map item_names items)
  | LoopNode _ _ body => item_names body
  end.

Fixpoint has_loop (node : FormatNode) : bool :=
  match node with
  | ItemNode _ _ => false
  | NewlineNode => false
  | SequenceNode items => existsb has_loop items
  | LoopNode _ _ _ => true
  end.

(** The names of [names] that are not in [seen], each kept at its first
    appearance only. *)
Fixpoint first_appearances (seen : list string) (names : list string) : list string :=
  match names with
  | [] => []
  | x :: rest =>
      if bool_decide (x ∈ seen) then first_appearances seen rest
      else x :: first_appearances (seen ++ [x]) rest
  end.

(** How many lines of a traced run have the given kind. *)
Definition count_kind (k : line_kind) (lines : list (line_kind * string)) : nat :=
  length (filter (λ l, line_kind_eqb l.1 k = true) lines).

(** The values of the indenter's nest counter.  [nest_depth] is the value a
    line is prefixed with, [nest_after_line] the value after the line;
    [nest_values] lists both for every line of a pass, in order, and
    [nest_after] is the counter at the end of the pass. *)
Definition nest_depth (nest : Z) (line : string) : Z :=
  if startswith line "}" then nest - 1 else nest.

Definition nest_after_line (nest : Z) (line : string) : Z :=
  if endswith line "{" then nest_depth nest line + 1 else nest_depth nest line.

Fixpoint nest_values (nest : Z) (lines : list string) : list Z :=
  match lines with
  | [] => []
  | line :: rest =>
      nest_depth nest line :: nest_after_line nest line
        :: nest_values (nest_after_line nest line) rest
  end.

Fixpoint nest_depths (nest : Z) (lines : list string) : list Z :=
  match lines with
  | [] => []
  | line :: rest => nest_depth nest line :: nest_depths (nest_after_line nest line) rest
  end.

Definition nest_after (nest : Z) (lines : list string) : Z :=
  fold_left nest_after_line lines nest.

(** Container type and constructor of a declaration, by recursion on the
    dimensions from the outermost one, with the namespace qualifier [q]
    made explicit. *)
Fixpoint container_type (q : string) (dims : list string) : string :=
  match dims with
  | [] => "int"
  | _ :: inner => q +:+ "vector<" +:+ container_type q inner +:+ ">"
  end.

Fixpoint container_ctor (q : string) (dims : list string) : string :=
  match dims with
  | [] => ""
  | dim :: inner =>
      "(" +:+ dim +:+ ", " +:+ container_type q inner
          +:+ "(" +:+ container_ctor q inner +:+ "))"
  end.

(** The container type nested [d] levels deep around the scalar type. *)
Definition nested_container (q : string) (d : nat) : string :=
  Nat.iter d (λ inner, q +:+ "vector<" +:+ inner +:+ ">") "int".

(** A parameter of the signature: by value for a scalar, by constant
    reference to the [d]-level container otherwise. *)
Definition parameter_fragment (q : string) (name : string) (d : nat) : string :=
  match d with
  | O => "int " +:+ name
  | S _ => "const " +:+ nested_container q d +:+ " & " +:+ name
  end.

(** The option values that the three strategy selectors accept: unset, the
    tokens they compare with, and hooks. *)
Definition rep_macro_supported (v : pyval) : bool :=
  match v with
  | VNone | VStr _ | VCallable _ => true
  | _ => false
  end.

Definition scanner_supported (v : pyval) : bool :=
  match v with
  | VNone | VCallable _ => true
  | VStr s => bool_decide (s ∈ ["scanf"; "cin"; "std::cin"])
  | _ => false
  end.

Definition printer_supported (v : pyval) : bool :=
  match v with
  | VNone | VCallable _ => true
  | VStr s => bool_decide (s ∈ ["scanf"; "cout"; "std::cout"])
  | _ => false
  end.

Definition scan_line (path : string) : string :=
  "scanf(" +:+ dquote +:+ "%d" +:+ dquote +:+ ", &" +:+ path +:+ ");".

(** What the traced run of a subtree whose items are [names] looks like when
    it returns: the variables it adds to [declared], and for every variable
    it declares the one declaration line, right before the first read of
    that variable. *)
Definition traced_ok (dims : dict) (data : Data) (names : list string)
    (declared : gset string) (lines : list (line_kind * string))
    (declared' : gset string) : Prop :=
  declared' = declared ∪ list_to_set names ∧
  (∀ x, Declaration x ∈ lines.*1 → (x ∉ declared) ∧ x ∈ names) ∧
  (∀ x, ScalarRead x ∈ lines.*1 → x ∈ names) ∧
  (∀ x, x ∉ declared → x ∈ names →
     count_kind (Declaration x) lines = 1%nat ∧
     ∃ before after indices ds,
       dict_lookup x dims = Some ds ∧
       lines = (before
                ++ (Declaration x, _declare_variable x ds data)
                :: (ScalarRead x, scan_line (indexed_path x indices))
                :: after) ∧
       ScalarRead x ∉ before.*1).

(** A run of lines is balanced from the counter value [n] when the counter
    never goes below [n] during the pass and, if the run returned, is back
    at [n] after it. *)
Definition balanced_run {A : Type} (n : Z) (g : Gen string A) : Prop :=
  Forall (λ v, n ≤ v) (nest_values n g.1) ∧
  n ≤ nest_after n g.1 ∧
  (∀ a, g.2 = Ok a → nest_after n g.1 = n).

(** The loop headers of a style keep the indenter's convention when their
    text does not begin with the closing marker: always so for the counted
    loop, for a macro when its name does not begin with the marker, for a
    hook when none of its results does. *)
Definition headers_keep_convention (rep : pyval) : Prop :=
  match rep with
  | VStr M => startswith M "}" = false
  | VCallable f => ∀ var size, startswith (f [var; size]) "}" = false
  | _ => True
  end.

(** Concrete inputs. *)
Definition cfg (l : list (string * pyval)) : gmap string pyval := list_to_map l.

Definition scenarioB : FormatNode := LoopNode "i" "n" (ItemNode "a" ["i"]).

(** ** Further code and notions *)

(** The [Item] nodes of a tree in traversal order, each with its name and
    its indices. *)
Fixpoint item_paths (node : FormatNode) : list (string * list string) :=
  match node with
  | ItemNode name indices => [(name, indices)]
  | NewlineNode => []
  | SequenceNode items => concat (map item_paths items)
  | LoopNode _ _ body => item_paths body
  end.

Definition declared_name (k : line_kind) : option string :=
  match k with
  | Declaration name => Some name
  | _ => None
  end.

Definition is_scalar_read (k : line_kind) : bool :=
  match k with
  | ScalarRead _ => true
  | _ => false
  end.

(** The traversal a third time, each yielded line paired with the nesting
    level of the node that yields it: the level it is called with, one more
    inside the body of a loop.  The levels are ghost annotations; erasing
    them gives [_read_input_dfs] back ([leveled_erase]). *)
Fixpoint _read_input_dfs_leveled (node : FormatNode) (level : Z)
    (declared : gset string) (dims : dict) (data : Data) {struct node}
  : Gen (Z * string) (gset string) :=
  match node with
  | ItemNode name indices =>
      let var := indexed_path name indices in
      let read := "scanf(" +:+ dquote +:+ "%d" +:+ dquote +:+ ", &" +:+ var +:+ ");" in
      if decide (name ∈ declared) then ([(level, read)], Ok declared)
      else
        let declared := {[name]} ∪ declared in
        match dict_lookup name dims with
        | None => ([], Raise (KeyError name))
        | Some ds =>
            ([(level, _declare_variable name ds data); (level, read)], Ok declared)
        end
  | NewlineNode => ([], Ok declared)
  | SequenceNode items =>
      (fix each (items : list FormatNode) (declared : gset string)
         : Gen (Z * string) (gset string) :=
         match items with
         | [] => ([], Ok declared)
         | item :: rest =>
             gen_bind (_read_input_dfs_leveled item level declared dims data) (each rest)
         end) items declared
  | LoopNode name size body =>
      match _declare_loop name size data with
      | Raise e => ([], Raise e)
      | Ok header =>
          gen_bind (yield (level, header +:+ " {")) (λ _,
          gen_bind (_read_input_dfs_leveled body (level + 1) declared dims data)
            (λ declared,
          gen_bind (yield (level, "}")) (λ _, ([], Ok declared))))
      end
  end.

(** The indenter follows the levels of a run from the counter value [n]:
    every line is prefixed at its level and, if the run returned, the
    counter is back at [n]. *)
Definition leveled_ok {A : Type} (n : Z) (g : Gen (Z * string) A) : Prop :=
  nest_depths n g.1.*2 = g.1.*1 ∧
  n ≤ nest_after n g.1.*2 ∧
  (∀ a, g.2 = Ok a → nest_after n g.1.*2 = n).

(** *** [get_directory] *)

(** A problem of the [onlinejudge] library as far as [get_directory] looks
    at it: the attributes [getattr] can find, and the results of the method
    calls, taken to return ([get_contest] excepted, whose failure the
    function handles). *)
Record Problem : Type := mkProblem {
  problem_attrs : gmap string pyval;
  service_name : string;
  service_domain : string;
  get_contest : result (gmap string pyval);
  url_path : string
}.

(** [getattr(obj, name, None)]; [obj] may be [None], which has none of the
    attributes looked for. *)
Definition getattr (obj : option (gmap string pyval)) (name : string) : pyval :=
  match obj with
  | Some attrs => default VNone (attrs !! name)
  | None => VNone
  end.

(** [for name in names: v = getattr(obj, name, None); if v: break] with the
    [else] branch of the loop giving [otherwise]. *)
Fixpoint for_else_attr (obj : option (gmap string pyval)) (names : list string)
    (otherwise : pyval) : pyval :=
  match names with
  | [] => otherwise
  | name :: rest =>
      let v := getattr obj name in
      if truthy v then v else for_else_attr obj rest otherwise
  end.

(** [text.lstrip(c)] and [text.replace(c, d)] for one-character arguments. *)
Fixpoint lstrip_char (c : ascii) (text : string) : string :=
  match text with
  | EmptyString => EmptyString
  | String a rest => if Ascii.eqb a c then lstrip_char c rest else text
  end.

Fixpoint replace_char (c d : ascii) (text : string) : string :=
  match text with
  | EmptyString => EmptyString
  | String a rest => String (if Ascii.eqb a c then d else a) (replace_char c d rest)
  end.

Definition contest_id_names : list string := ["contest_id"; "contest_slug"].

Definition problem_id_names : list string :=
  ["problem_id"; "problem_slug"; "problem_no"; "task_id"; "task_slug"; "task_no";
   "alphabet"; "index"].

Record directory_params : Type := mkParams {
  param_service_name : string;
  param_service_domain : string;
  param_contest_id : pyval;
  param_problem_id : pyval
}.

(** The first part of [get_directory], up to the dictionary [params]. *)
Definition get_directory_params (problem : Problem)
    (contest : option (gmap string pyval)) : directory_params :=
  let contest :=
    match contest with
    | Some c => Some c
    | None =>
        match get_contest problem with
        | Ok c => Some c
        | Raise _ => None
        end
    end in
  let contest_id := for_else_attr contest contest_id_names (VStr "") in
  let problem_id :=
    for_else_attr (Some (problem_attrs problem)) problem_id_names
      (VStr (replace_char "/" "-" (lstrip_char "/" (url_path problem)))) in
  mkParams (service_name problem) (service_domain problem) contest_id problem_id.

(** *** [prepare_contest] *)

(** [for i, problem in enumerate(contest.list_problems()): prepare_problem(...)],
    with the preparation of one problem as a collaborator. *)
Fixpoint prepare_contest {P : Type} (prepare_problem : P → IO ())
    (problems : list P) : IO () :=
  match problems with
  | [] => mret ()
  | problem :: rest =>
      _ ← prepare_problem problem;
      prepare_contest prepare_problem rest
  end.

(** *** Declaration statements as texts *)

(** A text is a declaration statement of the variable [x]: a scalar or
    container type, with or without the namespace qualifier, then the
    variable, the constructor arguments of the container, and a semicolon. *)
Definition declaration_of (x : string) (text : string) : Prop :=
  ∃ q dims,
    (q = "" ∨ q = "std::") ∧
    text = container_type q dims +:+ " " +:+ x +:+ container_ctor q dims +:+ ";".

(** The text of a traced line is of its kind. *)
Definition line_fits (data : Data) (l : line_kind * string) : Prop :=
  match l.1 with
  | Declaration y => ∃ ds, l.2 = _declare_variable y ds data
  | ScalarRead _ => ∃ path, l.2 = scan_line path
  | LoopHeader => ∃ header, l.2 = header +:+ " {"
  | LoopFooter => l.2 = "}"
  end.

(** ** Auxiliary facts *)

(** Induction on format trees, with the hypothesis for every child of a
    sequence. *)
Lemma FormatNode_ind_nested (P : FormatNode → Prop) :
  (∀ name indices, P (ItemNode name indices)) →
  P NewlineNode →
  (∀ items, Forall P items → P (SequenceNode items)) →
  (∀ name size body, P body → P (LoopNode name size body)) →
  ∀ node, P node.
Proof.
  intros HI HN HS HL.
  fix IH 1. intros [name indices| |items|name size body].
  - apply HI.
  - apply HN.
  - apply HS. induction items as [|item items IHitems]; constructor.
    + apply IH.
    + apply IHitems.
  - apply HL, IH.
Qed.

(** *** Texts *)

Lemma string_length_app (a b : string) :
  String.length (a +:+ b) = (String.length a + String.length b)%nat.
Proof. induction a as [|c a IH]; simpl; [done|]. by rewrite <- IH. Qed.

Lemma endswith_app (a b p : string) :
  (String.length p ≤ String.length b)%nat →
  endswith (a +:+ b) p = endswith b p.
Proof.
  intros Hlen. induction a as [|c a IH]; [done|].
  change (String c a +:+ b) with (String c (a +:+ b)).
  cbn [endswith]. rewrite IH.
  destruct (String.eqb_spec (String c (a +:+ b)) p) as [Heq|]; [|done].
  apply (f_equal String.length) in Heq. simpl in Heq.
  rewrite string_length_app in Heq. lia.
Qed.

Lemma startswith_app (a b : string) (p : ascii) :
  a ≠ "" → startswith (a +:+ b) (String p "") = startswith a (String p "").
Proof.
  destruct a as [|c a]; [done|]. intros _.
  change (String c a +:+ b) with (String c (a +:+ b)).
  unfold startswith. cbn [String.prefix].
  destruct (ascii_dec p c); [|done]. by destruct (a +:+ b), a.
Qed.

Lemma get_std_cases (data : Data) : _get_std data = "" ∨ _get_std data = "std::".
Proof. unfold _get_std. destruct (truthy _); auto. Qed.

Ltac drop_prefixes :=
  repeat (rewrite endswith_app
            by (rewrite ?string_length_app; cbn [String.length]; lia)).

(** *** The lines of the traversal and the markers *)

Lemma declare_variable_fold (data : Data) (dims : list string) :
  fold_left (declare_step data) (rev dims) ("int", "")
  = (container_type (_get_std data) dims, container_ctor (_get_std data) dims).
Proof.
  induction dims as [|dim dims IH]; [done|].
  cbn [rev]. rewrite fold_left_app, IH. reflexivity.
Qed.

Lemma declare_variable_eq (name : string) (dims : list string) (data : Data) :
  _declare_variable name dims data
  = container_type (_get_std data) dims +:+ " " +:+ name
      +:+ container_ctor (_get_std data) dims +:+ ";".
Proof. unfold _declare_variable. by rewrite declare_variable_fold. Qed.

Lemma container_type_head (data : Data) (dims : list string) (rest : string) :
  startswith (container_type (_get_std data) dims +:+ rest) "}" = false.
Proof.
  destruct dims as [|dim dims]; [done|]. cbn [container_type].
  by destruct (get_std_cases data) as [-> | ->].
Qed.

Lemma declaration_startswith (name : string) (dims : list string) (data : Data) :
  startswith (_declare_variable name dims data) "}" = false.
Proof. rewrite declare_variable_eq. apply container_type_head. Qed.

Lemma declaration_endswith (name : string) (dims : list string) (data : Data) :
  endswith (_declare_variable name dims data) "{" = false.
Proof. rewrite declare_variable_eq. by drop_prefixes. Qed.

Lemma scan_line_startswith (path : string) : startswith (scan_line path) "}" = false.
Proof. done. Qed.

Lemma scan_line_endswith (path : string) : endswith (scan_line path) "{" = false.
Proof. unfold scan_line. by drop_prefixes. Qed.

Lemma header_endswith (header : string) : endswith (header +:+ " {") "{" = true.
Proof. by drop_prefixes. Qed.

Lemma header_startswith (header : string) :
  startswith (header +:+ " {") "}" = startswith header "}".
Proof. destruct header as [|c header]; [done|]. by apply startswith_app. Qed.

(** *** The nest counter *)

Lemma nest_after_app (n : Z) (l1 l2 : list string) :
  nest_after n (l1 ++ l2) = nest_after (nest_after n l1) l2.
Proof. apply fold_left_app. Qed.

Lemma nest_values_app (n : Z) (l1 l2 : list string) :
  nest_values n (l1 ++ l2) = nest_values n l1 ++ nest_values (nest_after n l1) l2.
Proof.
  revert n. induction l1 as [|line l1 IH]; intros n; [done|].
  cbn [app nest_values]. by rewrite IH.
Qed.

Lemma nest_depths_length (n : Z) (lines : list string) :
  length (nest_depths n lines) = length lines.
Proof. revert n. induction lines as [|line lines IH]; intros n; cbn; [done|]. by rewrite IH. Qed.

(** With a text as indent unit the loop never fails: every line is prefixed
    with [nest_depth] copies of the unit and the counter ends at
    [nest_after]. *)
Lemma indent_loop_text (unit : string) (lines : list string) (n : Z) (buf : list string) :
  indent_loop (VStr unit) lines (n, buf)
  = Ok (nest_after n lines,
        buf ++ zip_with (λ d line, str_mul unit d +:+ line) (nest_depths n lines) lines).
Proof.
  revert n buf. induction lines as [|line lines IH]; intros n buf.
  - cbn. by rewrite app_nil_r.
  - cbn [indent_loop indent_step indent_line mbind result_bind].
    rewrite IH. cbn [nest_depths zip_with nest_after fold_left].
    by rewrite <- app_assoc.
Qed.

Lemma indent_loop_no_text (indent : pyval) (lines : list string) (st : Z * list string) :
  (∀ unit, indent ≠ VStr unit) →
  indent_loop indent lines st = match lines with [] => Ok st | _ => Raise TypeError end.
Proof.
  intros Hno. destruct lines as [|line lines]; [done|]. destruct st as [n buf].
  cbn. destruct indent; try done. by destruct (Hno s).
Qed.

(** *** The dimension table *)

Lemma dict_lookup_is_Some (key : string) (d : dict) :
  is_Some (dict_lookup key d) ↔ key ∈ d.*1.
Proof.
  induction d as [|[k v] d IH]; cbn.
  - split; [by intros [? ?]|by intros ?%elem_of_nil].
  - rewrite elem_of_cons. destruct (String.eqb_spec k key) as [->|Hne].
    + split; eauto.
    + rewrite IH. naive_solver.
Qed.

Lemma first_appearances_app (seen l1 l2 : list string) :
  first_appearances seen (l1 ++ l2)
  = first_appearances seen l1
      ++ first_appearances (seen ++ first_appearances seen l1) l2.
Proof.
  revert seen. induction l1 as [|x l1 IH]; intros seen; cbn.
  - by rewrite app_nil_r.
  - case_bool_decide; [apply IH|].
    cbn. rewrite IH. by rewrite <- (app_assoc seen [x]).
Qed.

Lemma first_appearances_elem (seen names : list string) (x : string) :
  x ∈ seen ++ first_appearances seen names ↔ x ∈ seen ∨ x ∈ names.
Proof.
  revert seen. induction names as [|y names IH]; intros seen; cbn.
  - rewrite app_nil_r. set_solver.
  - case_bool_decide.
    + rewrite IH. set_solver.
    + rewrite (cons_middle y seen), app_assoc, IH. set_solver.
Qed.

Lemma first_appearances_NoDup (seen names : list string) :
  NoDup seen → NoDup (seen ++ first_appearances seen names).
Proof.
  revert seen. induction names as [|y names IH]; intros seen Hseen; cbn.
  - by rewrite app_nil_r.
  - case_bool_decide; [by apply IH|].
    rewrite (cons_middle y seen), app_assoc. apply IH.
    apply NoDup_app. split_and!; [done|set_solver|apply NoDup_singleton].
Qed.

(** The keys of the table are the variable names in order of first
    appearance, after the keys it already had. *)
Lemma list_used_items_dfs_keys (node : FormatNode) :
  ∀ sizes table,
    (_list_used_items_dfs node sizes table).*1
    = table.*1 ++ first_appearances table.*1 (item_names node).
Proof.
  induction node as [name indices| |items IH|name size body IH]
    using FormatNode_ind_nested; intros sizes table.
  - cbn. destruct (dict_lookup name table) as [ds|] eqn:Hl.
    + rewrite bool_decide_eq_true_2; [by rewrite app_nil_r|].
      apply dict_lookup_is_Some. by rewrite Hl.
    + rewrite bool_decide_eq_false_2; [by rewrite fmap_app|].
      rewrite <- dict_lookup_is_Some, Hl. by intros [? ?].
  - cbn. by rewrite app_nil_r.
  - cbn [_list_used_items_dfs item_names]. revert table.
    induction IH as [|item items Hitem _ IHitems]; intros table.
    + cbn. by rewrite app_nil_r.
    + cbn [fold_left map concat]. rewrite IHitems, Hitem.
      rewrite first_appearances_app. by rewrite <- app_assoc.
  - cbn. apply IH.
Qed.

Lemma list_used_items_keys (node : FormatNode) :
  (list_used_items node).*1 = first_appearances [] (item_names node).
Proof. apply (list_used_items_dfs_keys node [] []). Qed.

Lemma list_used_items_covers (node : FormatNode) (x : string) :
  x ∈ item_names node → is_Some (dict_lookup x (list_used_items node)).
Proof.
  intros Hx. apply dict_lookup_is_Some. rewrite list_used_items_keys.
  apply (first_appearances_elem [] (item_names node) x). by right.
Qed.

(** *** The traced traversal *)

Lemma gen_bind_fmap {L L' A B : Type} (f : L → L') (g : Gen L A) (k : A → Gen L B)
    (g' : Gen L' A) (k' : A → Gen L' B) :
  g' = (f <$> g.1, g.2) →
  (∀ a, k' a = (f <$> (k a).1, (k a).2)) →
  gen_bind g' k' = (f <$> (gen_bind g k).1, (gen_bind g k).2).
Proof.
  intros -> Hk. destruct g as [ls [a|e]]; cbn; [|done].
  rewrite Hk. destruct (k a) as [ls' r]. cbn. by rewrite fmap_app.
Qed.

(** Erasing the kinds of the traced traversal gives the traversal. *)
Lemma traced_erase (dims : dict) (data : Data) (node : FormatNode) :
  ∀ declared,
    _read_input_dfs node declared dims data
    = ((_read_input_dfs_traced node declared dims data).1.*2,
       (_read_input_dfs_traced node declared dims data).2).
Proof.
  induction node as [name indices| |items IH|name size body IH]
    using FormatNode_ind_nested; intros declared.
  - cbn. case_decide; [done|]. by destruct (dict_lookup name dims).
  - done.
  - cbn [_read_input_dfs _read_input_dfs_traced]. revert declared.
    induction IH as [|item items Hitem _ IHitems]; intros declared; [done|].
    apply gen_bind_fmap; [apply Hitem|apply IHitems].
  - cbn [_read_input_dfs _read_input_dfs_traced].
    destruct (_declare_loop name size data) as [header|e]; [|done].
    apply gen_bind_fmap; [done|]. intros _.
    apply gen_bind_fmap; [apply IH|]. intros declared'.
    by apply gen_bind_fmap.
Qed.

Lemma count_kind_app (k : line_kind) (l1 l2 : list (line_kind * string)) :
  count_kind k (l1 ++ l2) = (count_kind k l1 + count_kind k l2)%nat.
Proof. unfold count_kind. by rewrite filter_app, length_app. Qed.

Lemma line_kind_eqb_eq (k1 k2 : line_kind) : line_kind_eqb k1 k2 = true ↔ k1 = k2.
Proof.
  destruct k1, k2; cbn; try (split; [done|congruence]);
    rewrite String.eqb_eq; split; congruence.
Qed.

Lemma count_kind_absent (k : line_kind) (lines : list (line_kind * string)) :
  k ∉ lines.*1 → count_kind k lines = 0%nat.
Proof.
  intros Hk. unfold count_kind.
  induction lines as [|[k' t] lines IH]; [done|].
  rewrite fmap_cons, not_elem_of_cons in Hk. destruct Hk as [Hne Hk].
  rewrite filter_cons_False; [by apply IH|].
  cbn in *. rewrite line_kind_eqb_eq. congruence.
Qed.


Section traversal.

Variable dims : dict.
Variable data : Data.

Lemma traced_ok_nil (declared : gset string) : traced_ok dims data [] declared [] declared.
Proof.
  split_and!.
  - set_solver.
  - by intros x ?%elem_of_nil.
  - by intros x ?%elem_of_nil.
  - by intros x _ ?%elem_of_nil.
Qed.

(** A loop header or footer declares and reads nothing. *)
Lemma traced_ok_marker (declared : gset string) (k : line_kind) (text : string) :
  k = LoopHeader ∨ k = LoopFooter →
  traced_ok dims data [] declared [(k, text)] declared.
Proof.
  intros Hk. split_and!.
  - set_solver.
  - intros x ?%list_elem_of_singleton. cbn in *. naive_solver.
  - intros x ?%list_elem_of_singleton. cbn in *. naive_solver.
  - by intros x _ ?%elem_of_nil.
Qed.

Lemma traced_ok_app (n1 n2 : list string) (d d1 d2 : gset string)
    (l1 l2 : list (line_kind * string)) :
  traced_ok dims data n1 d l1 d1 →
  traced_ok dims data n2 d1 l2 d2 →
  traced_ok dims data (n1 ++ n2) d (l1 ++ l2) d2.
Proof.
  intros (Hd1 & Hdecl1 & Hread1 & Hfirst1) (Hd2 & Hdecl2 & Hread2 & Hfirst2).
  split_and!.
  - rewrite Hd2, Hd1, list_to_set_app_L. set_solver.
  - intros x. rewrite fmap_app, elem_of_app. intros [Hx|Hx].
    + apply Hdecl1 in Hx. set_solver.
    + apply Hdecl2 in Hx. set_solver.
  - intros x. rewrite fmap_app, elem_of_app. intros [Hx|Hx].
    + apply Hread1 in Hx. set_solver.
    + apply Hread2 in Hx. set_solver.
  - intros x Hxd Hx. rewrite count_kind_app.
    destruct (decide (x ∈ n1)) as [Hn1|Hn1].
    + destruct (Hfirst1 x Hxd Hn1)
        as (Hcount & before & after & indices & ds & Hds & -> & Hbefore).
      split.
      * rewrite Hcount, (count_kind_absent _ l2); [done|].
        intros Hin. apply Hdecl2 in Hin. set_solver.
      * exists before, (after ++ l2), indices, ds. split_and!; [done| |done].
        by rewrite <- app_assoc.
    + assert (x ∈ n2) as Hn2 by set_solver.
      assert (x ∉ d1) as Hxd1 by set_solver.
      destruct (Hfirst2 x Hxd1 Hn2)
        as (Hcount & before & after & indices & ds & Hds & -> & Hbefore).
      split.
      * rewrite Hcount, (count_kind_absent _ l1); [done|].
        intros Hin. apply Hdecl1 in Hin. set_solver.
      * exists (l1 ++ before), after, indices, ds. split_and!; [done| |].
        -- by rewrite <- app_assoc.
        -- rewrite fmap_app, elem_of_app. intros [Hin|Hin]; [|done].
           apply Hread1 in Hin. done.
Qed.

Lemma traced_ok_item_declared (name : string) (indices : list string)
    (declared : gset string) :
  name ∈ declared →
  traced_ok dims data [name] declared
    [(ScalarRead name, scan_line (indexed_path name indices))] declared.
Proof.
  intros Hin. split_and!.
  - set_solver.
  - intros x ?%list_elem_of_singleton. done.
  - intros x ?%list_elem_of_singleton. set_solver.
  - intros x Hx ?%list_elem_of_singleton. set_solver.
Qed.

Lemma traced_ok_item_fresh (name : string) (indices ds : list string)
    (declared : gset string) :
  name ∉ declared →
  dict_lookup name dims = Some ds →
  traced_ok dims data [name] declared
    [(Declaration name, _declare_variable name ds data);
     (ScalarRead name, scan_line (indexed_path name indices))]
    ({[name]} ∪ declared).
Proof.
  intros Hin Hds. split_and!.
  - set_solver.
  - intros x Hx. cbn in Hx. set_solver.
  - intros x Hx. cbn in Hx. set_solver.
  - intros x Hx ->%list_elem_of_singleton. split.
    + unfold count_kind. rewrite filter_cons_True, filter_cons_False, filter_nil; cbn;
        [done|done|apply String.eqb_refl].
    + exists [], [], indices, ds. split_and!; [done|done|].
      by intros ?%elem_of_nil.
Qed.

Hypothesis loops_ok : ∀ var size, ∃ header, _declare_loop var size data = Ok header.

(** When every loop header can be emitted and every variable has an entry
    in the dimension table, the traversal of a subtree returns. *)
Lemma traced_run (node : FormatNode) :
  ∀ declared,
    (∀ x, x ∈ item_names node → is_Some (dict_lookup x dims)) →
    ∃ lines declared',
      _read_input_dfs_traced node declared dims data = (lines, Ok declared') ∧
      traced_ok dims data (item_names node) declared lines declared'.
Proof.
  induction node as [name indices| |items IH|name size body IH]
    using FormatNode_ind_nested; intros declared Hdims.
  - cbn [_read_input_dfs_traced item_names]. case_decide as Hin.
    + eexists _, _. split; [done|]. by apply traced_ok_item_declared.
    + destruct (Hdims name) as [ds Hds]; [set_solver|]. rewrite Hds.
      eexists _, _. split; [done|]. by apply traced_ok_item_fresh.
  - eexists _, _. split; [done|]. apply traced_ok_nil.
  - cbn [_read_input_dfs_traced item_names] in *. revert declared Hdims.
    induction IH as [|item items Hitem _ IHitems]; intros declared Hdims.
    + eexists _, _. split; [done|]. apply traced_ok_nil.
    + cbn [map concat] in *.
      destruct (Hitem declared) as (l1 & d1 & Hrun1 & Hok1); [set_solver|].
      destruct (IHitems d1) as (l2 & d2 & Hrun2 & Hok2); [set_solver|].
      rewrite Hrun1. cbn [gen_bind]. rewrite Hrun2.
      eexists _, _. split; [done|]. by eapply traced_ok_app.
  - cbn [_read_input_dfs_traced item_names] in *.
    destruct (loops_ok name size) as [header ->].
    destruct (IH declared Hdims) as (ls & d' & Hrun & Hok).
    rewrite Hrun. cbn.
    eexists _, _. split; [done|].
    apply (traced_ok_app [] (item_names body) declared declared d' [_]);
      [by apply traced_ok_marker; left|].
    rewrite <- (app_nil_r (item_names body)).
    eapply traced_ok_app; [done|]. by apply traced_ok_marker; right.
Qed.

End traversal.

(** *** Balance of the yielded lines *)

Lemma balanced_bind {A B : Type} (n : Z) (g : Gen string A) (k : A → Gen string B) :
  balanced_run n g → (∀ a, balanced_run n (k a)) → balanced_run n (gen_bind g k).
Proof.
  intros (Hvals & Hge & Hback) Hk. destruct g as [l1 [a|e]]; cbn [fst snd gen_bind] in *.
  - specialize (Hk a). destruct (k a) as [l2 r]. destruct Hk as (Hvals2 & Hge2 & Hback2).
    unfold balanced_run. cbn [fst snd] in *.
    rewrite nest_values_app, nest_after_app, (Hback a eq_refl).
    split_and!; [by apply Forall_app|done|done].
  - split_and!; done.
Qed.

Lemma balanced_plain_line {A : Type} (n : Z) (line : string) (r : result A) :
  startswith line "}" = false → endswith line "{" = false →
  balanced_run n ([line], r).
Proof.
  intros Hs He. unfold balanced_run, nest_after. cbn.
  unfold nest_after_line, nest_depth. rewrite Hs, He.
  split_and!; [repeat constructor; lia|lia|done].
Qed.

Lemma balanced_nil {A : Type} (n : Z) (r : result A) : balanced_run n ([], r).
Proof. unfold balanced_run, nest_after. cbn. split_and!; [constructor|lia|done]. Qed.

Lemma header_nest (n : Z) (header : string) :
  startswith header "}" = false →
  nest_depth n (header +:+ " {") = n ∧ nest_after_line n (header +:+ " {") = n + 1.
Proof.
  intros Hs. unfold nest_after_line, nest_depth.
  by rewrite header_startswith, Hs, header_endswith.
Qed.

Lemma footer_nest (n : Z) : nest_depth n "}" = n - 1 ∧ nest_after_line n "}" = n - 1.
Proof. done. Qed.

(** A loop: the header opens one level, the body runs one level deeper, the
    footer closes the level. *)
Lemma balanced_loop {A : Type} (n : Z) (header : string) (body : Gen string A) :
  startswith header "}" = false →
  balanced_run (n + 1) body →
  balanced_run n
    (gen_bind (yield (header +:+ " {")) (λ _,
     gen_bind body (λ a,
     gen_bind (yield "}") (λ _, ([], Ok a))))).
Proof.
  intros Hs (Hvals & Hge & Hback).
  destruct (header_nest n header Hs) as [Hd Ha].
  assert (Forall (λ v, n ≤ v) (nest_values (n + 1) body.1)) as Hvals'.
  { eapply Forall_impl; [apply Hvals|]. cbn. intros; lia. }
  destruct body as [ls [a|e]]; unfold balanced_run, nest_after in *;
    cbn [gen_bind yield fst snd app nest_values fold_left] in *;
    rewrite Hd, Ha.
  - rewrite nest_values_app, fold_left_app. fold (nest_after (n + 1) ls).
    unfold nest_after. rewrite (Hback a eq_refl).
    cbn [nest_values fold_left].
    destruct (footer_nest (n + 1)) as [-> ->].
    split_and!.
    + repeat first [apply Forall_cons; split; [lia|] | apply Forall_app; split];
        [done|repeat constructor; lia].
    + lia.
    + intros; lia.
  - split_and!; [|lia|done].
    repeat (apply Forall_cons; split; [lia|]). done.
Qed.

Section balance.

Variable dims : dict.
Variable data : Data.
Hypothesis headers_open :
  ∀ var size header,
    _declare_loop var size data = Ok header → startswith header "}" = false.

Lemma traversal_balanced (node : FormatNode) :
  ∀ declared n, balanced_run n (_read_input_dfs node declared dims data).
Proof.
  induction node as [name indices| |items IH|name size body IH]
    using FormatNode_ind_nested; intros declared n.
  - cbn [_read_input_dfs]. case_decide.
    + apply balanced_plain_line; [apply scan_line_startswith|apply scan_line_endswith].
    + destruct (dict_lookup name dims) as [ds|]; [|apply balanced_nil].
      apply (balanced_bind n ([_], Ok ()) (λ _, ([_], _))).
      * apply balanced_plain_line;
          [apply declaration_startswith|apply declaration_endswith].
      * intros _. apply balanced_plain_line;
          [apply scan_line_startswith|apply scan_line_endswith].
  - apply balanced_nil.
  - cbn [_read_input_dfs]. revert declared.
    induction IH as [|item items Hitem _ IHitems]; intros declared.
    + apply balanced_nil.
    + apply balanced_bind; [apply Hitem|apply IHitems].
  - cbn [_read_input_dfs].
    destruct (_declare_loop name size data) as [header|e] eqn:Hloop;
      [|apply balanced_nil].
    apply balanced_loop; [by eapply headers_open|apply IH].
Qed.

End balance.

(** *** A loop header that cannot be emitted *)

Section unsupported_rep_macro.

Variable dims : dict.
Variable data : Data.
Hypothesis loops_fail : ∀ var size, _declare_loop var size data = Raise AssertionError.

(** The traversal yields the declarations and reads that come before the
    first loop and raises there; without a loop it returns. *)
Lemma traversal_stops_at_first_loop (node : FormatNode) :
  ∀ declared,
    (∀ x, x ∈ item_names node → is_Some (dict_lookup x dims)) →
    ∃ lines,
      Forall (λ line, endswith line "{" = false) lines ∧
      if has_loop node
      then _read_input_dfs node declared dims data = (lines, Raise AssertionError)
      else ∃ declared', _read_input_dfs node declared dims data = (lines, Ok declared').
Proof.
  induction node as [name indices| |items IH|name size body IH]
    using FormatNode_ind_nested; intros declared Hdims.
  - cbn [_read_input_dfs has_loop item_names] in *. case_decide.
    + eexists. split; [|by eexists].
      repeat constructor. apply scan_line_endswith.
    + destruct (Hdims name) as [ds ->]; [set_solver|].
      eexists. split; [|by eexists].
      repeat constructor; [apply declaration_endswith|apply scan_line_endswith].
  - exists []. split; [constructor|by eexists].
  - cbn [_read_input_dfs has_loop item_names] in *. revert declared Hdims.
    induction IH as [|item items Hitem _ IHitems]; intros declared Hdims.
    + exists []. split; [constructor|by eexists].
    + cbn [map concat existsb] in *.
      destruct (Hitem declared) as (l1 & Hl1 & Hrun1); [set_solver|].
      destruct (has_loop item).
      * rewrite Hrun1. by exists l1.
      * destruct Hrun1 as [d1 ->]. cbn [gen_bind orb].
        destruct (IHitems d1) as (l2 & Hl2 & Hrun2); [set_solver|].
        exists (l1 ++ l2). split; [by apply Forall_app|].
        destruct (existsb has_loop items).
        -- by rewrite Hrun2.
        -- destruct Hrun2 as [d2 ->]. by eexists.
  - cbn [_read_input_dfs has_loop]. rewrite loops_fail. by exists [].
Qed.

End unsupported_rep_macro.

(** *** Options that the traversal does not consult *)

Lemma config_get_insert_ne (inp : FormatNode) (c : gmap string pyval)
    (k k' : string) (v : pyval) :
  k ≠ k' →
  config_get (mkData inp (<[k := v]> c)) k' = config_get (mkData inp c) k'.
Proof. intros Hne. unfold config_get. cbn. by rewrite lookup_insert_ne. Qed.

Lemma get_std_insert_ne (inp : FormatNode) (c : gmap string pyval) (k : string) (v : pyval) :
  k ≠ "using_namespace_std" →
  _get_std (mkData inp (<[k := v]> c)) = _get_std (mkData inp c).
Proof.
  intros Hne. unfold _get_std, config_get_default. cbn. by rewrite lookup_insert_ne.
Qed.

Lemma declare_variable_insert_ne (inp : FormatNode) (c : gmap string pyval)
    (k : string) (v : pyval) (name : string) (ds : list string) :
  k ≠ "using_namespace_std" →
  _declare_variable name ds (mkData inp (<[k := v]> c))
  = _declare_variable name ds (mkData inp c).
Proof. intros Hne. rewrite !declare_variable_eq. by rewrite get_std_insert_ne. Qed.

Lemma declare_loop_insert_ne (inp : FormatNode) (c : gmap string pyval)
    (k : string) (v : pyval) (var size : string) :
  k ≠ "rep_macro" →
  _declare_loop var size (mkData inp (<[k := v]> c))
  = _declare_loop var size (mkData inp c).
Proof. intros Hne. unfold _declare_loop. by rewrite config_get_insert_ne. Qed.

(** The traversal reads the options [using_namespace_std] and [rep_macro]
    and no other: setting any other option leaves its lines unchanged. *)
Lemma read_input_dfs_insert_ne (inp : FormatNode) (c : gmap string pyval)
    (k : string) (v : pyval) (dims : dict) (node : FormatNode) :
  k ≠ "using_namespace_std" → k ≠ "rep_macro" →
  ∀ declared,
    _read_input_dfs node declared dims (mkData inp (<[k := v]> c))
    = _read_input_dfs node declared dims (mkData inp c).
Proof.
  intros Hstd Hrep.
  induction node as [name indices| |items IH|name size body IH]
    using FormatNode_ind_nested; intros declared.
  - cbn [_read_input_dfs]. case_decide; [done|].
    destruct (dict_lookup name dims); [|done]. by rewrite declare_variable_insert_ne.
  - done.
  - cbn [_read_input_dfs]. revert declared.
    induction IH as [|item items Hitem _ IHitems]; intros declared; [done|].
    rewrite Hitem. unfold gen_bind.
    destruct (_read_input_dfs item declared dims (mkData inp c)) as [ls [d|e]]; [|done].
    by rewrite IHitems.
  - cbn [_read_input_dfs]. rewrite declare_loop_insert_ne by done.
    destruct (_declare_loop name size (mkData inp c)); [|done]. by rewrite IH.
Qed.

Lemma string_app_assoc (a b c : string) : (a +:+ b) +:+ c = a +:+ b +:+ c.
Proof.
  induction a as [|x a IH]; [done|].
  change ((String x a +:+ b) +:+ c) with (String x ((a +:+ b) +:+ c)).
  by rewrite IH.
Qed.

Lemma read_input_scanner_irrelevant (inp : FormatNode) (c : gmap string pyval)
    (v : pyval) (nest : Z) :
  read_input (mkData inp (<["scanner" := v]> c)) nest = read_input (mkData inp c) nest.
Proof.
  unfold read_input, _join_with_indent, config_get_default. cbn [input config].
  rewrite read_input_dfs_insert_ne by done. by rewrite lookup_insert_ne.
Qed.

(** With a text as indent unit (four spaces when the option is unset), the
    indenter prefixes every line with [nest_depth] copies of the unit, the
    counter starting at 1 whatever [nest] is given. *)
Lemma join_with_indent_text {A : Type} (lines : list string) (a : A) (nest : Z)
    (data : Data) (unit : string) :
  config_get_default data "indent" (VStr "    ") = VStr unit →
  _join_with_indent (lines, Ok a) nest data
  = Ok (join newline
          (zip_with (λ d line, str_mul unit d +:+ line) (nest_depths 1 lines) lines)).
Proof.
  intros Hunit. unfold _join_with_indent. rewrite Hunit. cbn [fst snd].
  by rewrite indent_loop_text.
Qed.

(** ** The statement emitter and the style options *)

(** C1 — With [scanner="cin"] the read statement of the traversal should be a
    stream extraction.  At the tree [Loop("i", "n", Item("a", ["i"]))] the
    scalar-read selector [_read_int] does give [cin >> a[i];], but the
    traversal does not call it: the read line is the formatted scan, and the
    generated block is the one of the default style. *)
Theorem C1_read_input_ignores_scanner :
  let data := mkData scenarioB (cfg [("scanner", VStr "cin")]) in
  _read_int "a[i]" data = Ok "cin >> a[i];" ∧
  _read_input_dfs scenarioB ∅ (list_used_items scenarioB) data
  = (["for (int i = 0; i < n; ++i) {";
      "vector<int> a(n, int());";
      scan_line "a[i]";
      "}"], Ok {["a"]}) ∧
  read_input data 1 = read_input (mkData scenarioB ∅) 1.
Proof. intros data. split_and!; by vm_compute. Qed.

(** C2 — The indenter should start its counter at the given start depth.  It
    starts at 1 whatever depth it is given: with start depth 2 a single line
    gets one indent unit, and the result never depends on the start depth. *)
Theorem C2_join_with_indent_start_depth :
  _join_with_indent (["x;"], Ok ()) 2 (mkData NewlineNode ∅) = Ok "    x;" ∧
  ∀ (lines : Gen string ()) (n m : Z) (data : Data),
    _join_with_indent lines n data = _join_with_indent lines m data.
Proof. split; [by vm_compute|done]. Qed.

(** C3 — With [printer="printf"] the scalar-write selector should emit the
    formatted print.  The selector compares the option with ["scanf"]
    instead: ["printf"] reaches the final [assert False], so [write_output]
    raises, while ["scanf"] selects the formatted print. *)
Theorem C3_write_output_printf_rejected :
  let data := mkData NewlineNode (cfg [("printer", VStr "printf")]) in
  _write_int "ans" data = Raise AssertionError ∧
  write_output data 1 = Raise AssertionError ∧
  _write_int "ans" (mkData NewlineNode (cfg [("printer", VStr "scanf")]))
  = _write_int "ans" (mkData NewlineNode ∅).
Proof. intros data. split_and!; by vm_compute. Qed.

(** The other printer values behave as described: unset gives the formatted
    print, ["cout"] the stream insertion, a hook its own result. *)
Lemma write_int_strategies (data : Data) (var : string) :
  (config_get data "printer" = VNone →
     _write_int var data
     = Ok ("printf(" +:+ dquote +:+ "%d\n" +:+ dquote +:+ ", &" +:+ var +:+ ");")) ∧
  (config_get data "printer" = VStr "cout" →
     _write_int var data
     = Ok (_get_std data +:+ "cout << " +:+ var +:+ " << " +:+ _get_std data +:+ "endl;")) ∧
  (∀ f, config_get data "printer" = VCallable f → _write_int var data = Ok (f [var])).
Proof. unfold _write_int. split_and!; [intros ->|intros ->|intros f ->]; done. Qed.

Lemma rep_supported_loops_ok (data : Data) :
  rep_macro_supported (config_get data "rep_macro") = true →
  ∀ var size, ∃ header, _declare_loop var size data = Ok header.
Proof.
  intros Hrep var size. unfold _declare_loop.
  destruct (config_get data "rep_macro"); try done; by eexists.
Qed.

Lemma rep_unsupported_loops_fail (data : Data) :
  rep_macro_supported (config_get data "rep_macro") = false →
  ∀ var size, _declare_loop var size data = Raise AssertionError.
Proof.
  intros Hrep var size. unfold _declare_loop.
  by destruct (config_get data "rep_macro").
Qed.

Lemma scanner_unsupported_fails (data : Data) (var : string) :
  scanner_supported (config_get data "scanner") = false →
  _read_int var data = Raise AssertionError.
Proof.
  unfold _read_int. destruct (config_get data "scanner") as [| | |s|]; try done.
  cbn. intros Hs%bool_decide_eq_false.
  destruct (String.eqb_spec s "scanf") as [->|]; [set_solver|].
  destruct (String.eqb_spec s "cin") as [->|]; [set_solver|].
  destruct (String.eqb_spec s "std::cin") as [->|]; [set_solver|]. done.
Qed.

Lemma printer_unsupported_fails (data : Data) (var : string) :
  printer_supported (config_get data "printer") = false →
  _write_int var data = Raise AssertionError.
Proof.
  unfold _write_int. destruct (config_get data "printer") as [| | |s|]; try done.
  cbn. intros Hs%bool_decide_eq_false.
  destruct (String.eqb_spec s "scanf") as [->|]; [set_solver|].
  destruct (String.eqb_spec s "cout") as [->|]; [set_solver|].
  destruct (String.eqb_spec s "std::cout") as [->|]; [set_solver|]. done.
Qed.

(** The indenter passes on the exception of the generator unless the indent
    unit already failed on a line yielded before. *)
Lemma join_with_indent_raise (lines : list string) (e : exn) (nest : Z) (data : Data) :
  _join_with_indent (lines, @Raise (gset string) e) nest data = Raise e ∨
  _join_with_indent (lines, @Raise (gset string) e) nest data = Raise TypeError.
Proof.
  unfold _join_with_indent. cbn [fst snd].
  destruct (indent_loop _ lines (1, [])) as [st|e'] eqn:Hloop; [by left|right].
  destruct (config_get_default data "indent" (VStr "    ")) as [| | |unit|] eqn:Hindent;
    try (rewrite indent_loop_no_text in Hloop by done; by destruct lines; simplify_eq).
  by rewrite indent_loop_text in Hloop.
Qed.

(** What does fail: a [scanner], [printer] or [rep_macro] value that its
    selector does not accept (neither unset, nor one of the tokens the
    selector compares with, nor a hook) makes the selector raise as soon as
    it is consulted; [write_output] raises for such a printer, and for such
    a loop macro the input traversal raises at the first loop it reaches,
    after yielding only lines that open no loop, so that [read_input] raises
    and returns no text. *)
Lemma unsupported_style_option_raises (data : Data) :
  (scanner_supported (config_get data "scanner") = false →
     ∀ var, _read_int var data = Raise AssertionError) ∧
  (printer_supported (config_get data "printer") = false →
     (∀ var, _write_int var data = Raise AssertionError) ∧
     (∀ nest, write_output data nest = Raise AssertionError)) ∧
  (rep_macro_supported (config_get data "rep_macro") = false →
     (∀ var size, _declare_loop var size data = Raise AssertionError) ∧
     (has_loop (input data) = true →
        (∃ lines,
           _read_input_dfs (input data) ∅ (list_used_items (input data)) data
           = (lines, Raise AssertionError) ∧
           Forall (λ line, endswith line "{" = false) lines) ∧
        (∀ nest,
           read_input data nest = Raise AssertionError ∨
           read_input data nest = Raise TypeError))).
Proof.
  split_and!.
  - intros Hs var. by apply scanner_unsupported_fails.
  - intros Hp. split; [intros var; by apply printer_unsupported_fails|].
    intros nest. unfold write_output. by rewrite printer_unsupported_fails.
  - intros Hr. split; [by apply rep_unsupported_loops_fail|]. intros Hloop.
    destruct (traversal_stops_at_first_loop (list_used_items (input data)) data
                (rep_unsupported_loops_fail data Hr) (input data) ∅)
      as (lines & Hlines & Hrun); [apply list_used_items_covers|].
    rewrite Hloop in Hrun. split; [by exists lines|].
    intros nest. unfold read_input. rewrite Hrun. apply join_with_indent_raise.
Qed.

(** C4 — An option value that is neither a built-in token nor a hook
    should make the generation pass fail at the first statement that would
    use it.  Two such values go through.  The scanner value [1] makes the
    scalar-read selector raise, but the traversal never consults the
    scanner: [read_input] returns the block of the default style.  The
    printer value ["scanf"], which is no printer token, selects the
    formatted print: [write_output] returns it. *)
Theorem C4_invalid_option_accepted :
  let data := mkData (ItemNode "n" []) (cfg [("scanner", VInt 1)]) in
  _read_int "n" data = Raise AssertionError ∧
  read_input data 1 = Ok ("    int n;" +:+ newline +:+ "    " +:+ scan_line "n") ∧
  write_output (mkData (ItemNode "n" []) (cfg [("printer", VStr "scanf")])) 1
  = Ok ("    printf(" +:+ dquote +:+ "%d\n" +:+ dquote +:+ ", &ans);").
Proof. intros data. split_and!; by vm_compute. Qed.

(** C6 — The loop-header emitter selects by the kind of the [rep_macro]
    value: unset gives the counted loop from 0 to the size, exclusive; a text
    [M] gives the macro invocation [M (v, s)], which does not end with an
    opening brace; a hook gives its result on [(v, s)]; every other kind is
    refused.  (The traversal appends [" {"] to the header it gets.) *)
Theorem C6_declare_loop_strategies (data : Data) (var size : string) :
  (config data !! "rep_macro" = None ∨ config data !! "rep_macro" = Some VNone →
     _declare_loop var size data
     = Ok ("for (int " +:+ var +:+ " = 0; " +:+ var +:+ " < " +:+ size
           +:+ "; ++" +:+ var +:+ ")")) ∧
  (∀ M, config data !! "rep_macro" = Some (VStr M) →
     _declare_loop var size data = Ok (M +:+ " (" +:+ var +:+ ", " +:+ size +:+ ")") ∧
     endswith (M +:+ " (" +:+ var +:+ ", " +:+ size +:+ ")") "{" = false) ∧
  (∀ f, config data !! "rep_macro" = Some (VCallable f) →
     _declare_loop var size data = Ok (f [var; size])) ∧
  (rep_macro_supported (config_get data "rep_macro") = false →
     _declare_loop var size data = Raise AssertionError) ∧
  (∀ header body declared dims,
     _declare_loop var size data = Ok header →
     ∃ rest,
       (_read_input_dfs (LoopNode var size body) declared dims data).1
       = (header +:+ " {") :: rest).
Proof.
  unfold _declare_loop, config_get. split_and!.
  - by intros [-> | ->].
  - intros M ->. split; [done|]. by drop_prefixes.
  - by intros f ->.
  - by destruct (default VNone (config data !! "rep_macro")).
  - intros header body declared dims Hheader.
    cbn [_read_input_dfs]. unfold _declare_loop, config_get. rewrite Hheader.
    destruct (_read_input_dfs body declared dims data) as [ls [d|e]]; by eexists.
Qed.

Lemma C6_declare_loop_strategies_witness :
  _declare_loop "i" "n" (mkData scenarioB ∅) = Ok "for (int i = 0; i < n; ++i)" ∧
  _declare_loop "i" "n" (mkData scenarioB (cfg [("rep_macro", VStr "REP")]))
  = Ok "REP (i, n)" ∧
  _declare_loop "i" "n"
    (mkData scenarioB (cfg [("rep_macro", VCallable (λ args, join "/" args))]))
  = Ok "i/n" ∧
  _declare_loop "i" "n" (mkData scenarioB (cfg [("rep_macro", VInt 3)]))
  = Raise AssertionError.
Proof.
  split_and!.
  - destruct (C6_declare_loop_strategies (mkData scenarioB ∅) "i" "n") as (H & _).
    apply H. left. reflexivity.
  - destruct (C6_declare_loop_strategies
                (mkData scenarioB (cfg [("rep_macro", VStr "REP")])) "i" "n")
      as (_ & H & _).
    apply (H "REP"). reflexivity.
  - destruct (C6_declare_loop_strategies
                (mkData scenarioB (cfg [("rep_macro", VCallable (λ args, join "/" args))]))
                "i" "n")
      as (_ & _ & H & _).
    apply (H (λ args, join "/" args)). reflexivity.
  - destruct (C6_declare_loop_strategies
                (mkData scenarioB (cfg [("rep_macro", VInt 3)])) "i" "n")
      as (_ & _ & _ & H & _).
    apply H. reflexivity.
Defined.

(** ** The signature builder *)

Lemma container_type_nested (q : string) (dims : list string) :
  container_type q dims = nested_container q (length dims).
Proof.
  induction dims as [|dim dims IH]; [done|].
  cbn [container_type length]. rewrite IH. done.
Qed.

Lemma argument_type_fold (data : Data) (dims : list string) :
  fold_left (λ type _, _get_std data +:+ "vector<" +:+ type +:+ ">") (rev dims) "int"
  = container_type (_get_std data) dims.
Proof.
  induction dims as [|dim dims IH]; [done|].
  cbn [rev container_type]. by rewrite fold_left_app, IH.
Qed.

Lemma argument_fragment (data : Data) (name : string) (dims : list string) :
  argument_type data dims +:+ " " +:+ name
  = parameter_fragment (_get_std data) name (length dims).
Proof.
  unfold argument_type. rewrite argument_type_fold, container_type_nested.
  destruct dims as [|dim dims]; [done|].
  cbn [length parameter_fragment]. by rewrite !string_app_assoc.
Qed.


(** ** The namespace qualifier *)

(** C10 — The qualifier put before [cin], [cout], [endl] and [vector] is
    ["std::"] exactly when the option [using_namespace_std] is present with a
    false value, and empty when the option is absent or true; the emitters
    write that qualifier before each of these identifiers: the scalar read
    and write, the declaration (type and constructor), and every container
    level of every parameter type of the signature. *)
Theorem C10_std_qualifier (data : Data) :
  (_get_std data = "std::" ↔
     ∃ v, config data !! "using_namespace_std" = Some v ∧ truthy v = false) ∧
  (_get_std data = "" ↔
     config data !! "using_namespace_std" = None ∨
     ∃ v, config data !! "using_namespace_std" = Some v ∧ truthy v = true) ∧
  (config data !! "using_namespace_std" = Some (VBool false) → _get_std data = "std::") ∧
  (config data !! "using_namespace_std" = Some (VBool true) → _get_std data = "") ∧
  (∀ var,
     config_get data "scanner" = VStr "cin" ∨ config_get data "scanner" = VStr "std::cin" →
     _read_int var data = Ok (_get_std data +:+ "cin >> " +:+ var +:+ ";")) ∧
  (∀ var,
     config_get data "printer" = VStr "cout" ∨ config_get data "printer" = VStr "std::cout" →
     _write_int var data
     = Ok (_get_std data +:+ "cout << " +:+ var +:+ " << " +:+ _get_std data +:+ "endl;")) ∧
  (∀ name dims,
     _declare_variable name dims data
     = container_type (_get_std data) dims +:+ " " +:+ name
         +:+ container_ctor (_get_std data) dims +:+ ";") ∧
  (∀ name dim dims,
     argument_type data (dim :: dims) +:+ " " +:+ name
     = "const " +:+ _get_std data +:+ "vector<"
         +:+ nested_container (_get_std data) (length dims) +:+ "> & " +:+ name) ∧
  arguments_types data
  = join ", "
      (map (λ entry,
              match length entry.2 with
              | O => "int " +:+ entry.1
              | S d =>
                  "const " +:+ _get_std data +:+ "vector<"
                    +:+ Nat.iter d (λ inner, _get_std data +:+ "vector<" +:+ inner +:+ ">")
                                 "int"
                    +:+ "> & " +:+ entry.1
              end)
           (list_used_items (input data))).
Proof.
  split_and!.
  - unfold _get_std, config_get_default.
    destruct (config data !! "using_namespace_std") as [v|]; cbn.
    + destruct (truthy v) eqn:Hv; (split; [intros Hq|intros (v' & [= <-] & Hv')]);
        try done; try congruence; eauto.
    + split; [done|]. by intros (v' & Hv' & _).
  - unfold _get_std, config_get_default.
    destruct (config data !! "using_namespace_std") as [v|]; cbn.
    + destruct (truthy v) eqn:Hv;
        (split; [intros Hq|intros [Hv'|(v' & [= <-] & Hv')]]);
        try done; try congruence; eauto.
    + split; [by left|done].
  - unfold _get_std, config_get_default. by intros ->.
  - unfold _get_std, config_get_default. by intros ->.
  - intros var. unfold _read_int. by intros [-> | ->].
  - intros var. unfold _write_int. by intros [-> | ->].
  - intros name dims. apply declare_variable_eq.
  - intros name dim dims. rewrite argument_fragment.
    cbn [length parameter_fragment]. unfold nested_container at 1.
    cbn [Nat.iter nat_rect]. fold (nested_container (_get_std data) (length dims)).
    by rewrite !string_app_assoc.
  - unfold arguments_types. f_equal. apply map_ext. intros [name dims].
    rewrite argument_fragment. cbn [fst snd]. destruct (length dims) as [|d]; [done|].
    cbn [parameter_fragment]. unfold nested_container. cbn [Nat.iter nat_rect].
    by rewrite !string_app_assoc.
Qed.

Lemma C10_std_qualifier_witness :
  _get_std (mkData scenarioB (cfg [("using_namespace_std", VBool false)])) = "std::" ∧
  _get_std (mkData scenarioB (cfg [("using_namespace_std", VBool true)])) = "" ∧
  _read_int "n" (mkData scenarioB (cfg [("using_namespace_std", VBool false);
                                        ("scanner", VStr "cin")]))
  = Ok "std::cin >> n;".
Proof.
  split_and!.
  - destruct (C10_std_qualifier
                (mkData scenarioB (cfg [("using_namespace_std", VBool false)])))
      as (_ & _ & H & _).
    apply H. reflexivity.
  - destruct (C10_std_qualifier
                (mkData scenarioB (cfg [("using_namespace_std", VBool true)])))
      as (_ & _ & _ & H & _).
    apply H. reflexivity.
  - destruct (C10_std_qualifier
                (mkData scenarioB (cfg [("using_namespace_std", VBool false);
                                        ("scanner", VStr "cin")])))
      as (_ & _ & _ & _ & H & _).
    apply (H "n"). left. reflexivity.
Defined.

(** ** The indentation engine on the lines of the traversal *)

Lemma headers_open_of_style (data : Data) :
  headers_keep_convention (config_get data "rep_macro") →
  ∀ var size header,
    _declare_loop var size data = Ok header → startswith header "}" = false.
Proof.
  unfold _declare_loop. intros Hstyle var size header.
  destruct (config_get data "rep_macro") as [| | |M|f]; cbn in Hstyle;
    intros ?; simplify_eq; [done| |done].
  destruct M as [|c M]; [done|]. by rewrite startswith_app.
Qed.

(** C8 — Under a style whose loop headers do not begin with the closing
    marker, the nest counter of the pass over the lines of the input
    traversal stays at least at its initial value 1, hence never below
    zero; and over the lines of any subtree whose traversal returned, a loop
    in particular, the counter never goes below the value it had before the
    subtree and is back at that value after it, in the indenter's own
    loop. *)
Theorem C8_indentation_balance (data : Data) :
  headers_keep_convention (config_get data "rep_macro") →
  Forall (λ v, 0 ≤ v ∧ 1 ≤ v)
    (nest_values 1
       (_read_input_dfs (input data) ∅ (list_used_items (input data)) data).1) ∧
  (∀ node declared dims n lines declared',
     _read_input_dfs node declared dims data = (lines, Ok declared') →
     Forall (λ v, n ≤ v) (nest_values n lines) ∧
     nest_after n lines = n ∧
     ∀ unit buf, ∃ buf', indent_loop (VStr unit) lines (n, buf) = Ok (n, buf')).
Proof.
  intros Hstyle. pose proof (headers_open_of_style data Hstyle) as Hopen. split.
  - destruct (traversal_balanced (list_used_items (input data)) data Hopen
                (input data) ∅ 1) as (Hvals & _).
    eapply Forall_impl; [apply Hvals|]. cbn. intros; lia.
  - intros node declared dims n lines declared' Hrun.
    destruct (traversal_balanced dims data Hopen node declared n) as (Hvals & _ & Hback).
    rewrite Hrun in Hvals, Hback. cbn [fst snd] in *.
    split_and!; [done|by eapply Hback|].
    intros unit buf. rewrite indent_loop_text, (Hback declared' eq_refl). by eexists.
Qed.

Lemma C8_indentation_balance_witness :
  let data :=
    mkData (SequenceNode [scenarioB; LoopNode "j" "m" (ItemNode "b" ["j"])])
           (cfg [("rep_macro", VStr "REP")]) in
  headers_keep_convention (config_get data "rep_macro") ∧
  Forall (λ v, 0 ≤ v ∧ 1 ≤ v)
    (nest_values 1
       (_read_input_dfs (input data) ∅ (list_used_items (input data)) data).1).
Proof.
  intros data.
  assert (headers_keep_convention (config_get data "rep_macro")) as Hstyle
    by reflexivity.
  split; [exact Hstyle|].
  apply (C8_indentation_balance data Hstyle).
Defined.

(** C8, as stated, fails for a hook whose header begins with the closing
    marker: the header line then both closes and opens a level, the loop's
    footer closes one more, so the counter is one lower after the loop than
    before it, and goes below zero at the second such loop. *)
Lemma C8_counterexample :
  let data :=
    mkData (SequenceNode [scenarioB; LoopNode "j" "m" (ItemNode "b" ["j"])])
           (cfg [("rep_macro", VCallable (λ _, "} else"))]) in
  let dims := list_used_items (input data) in
  (_read_input_dfs (input data) ∅ dims data).1
  = ["} else {"; "vector<int> a(n, int());"; scan_line "a[i]"; "}";
     "} else {"; "vector<int> b(m, int());"; scan_line "b[j]"; "}"] ∧
  nest_values 1 (_read_input_dfs (input data) ∅ dims data).1
  = [0; 1; 1; 1; 1; 1; 0; 0; -1; 0; 0; 0; 0; 0; -1; -1] ∧
  ¬ Forall (λ v, 0 ≤ v) (nest_values 1 (_read_input_dfs (input data) ∅ dims data).1) ∧
  nest_after 1 (_read_input_dfs scenarioB ∅ dims data).1 = 0 ∧
  nest_after 1 (_read_input_dfs scenarioB ∅ dims data).1 ≠ 1.
Proof.
  intros data dims.
  assert (nest_values 1 (_read_input_dfs (input data) ∅ dims data).1
          = [0; 1; 1; 1; 1; 1; 0; 0; -1; 0; 0; 0; 0; 0; -1; -1]) as Hvals
    by (by vm_compute).
  split_and!; [by vm_compute|exact Hvals| |by vm_compute|by vm_compute].
  rewrite Hvals. intros Hall. rewrite !Forall_cons in Hall. lia.
Qed.

(** ** The template loop of the orchestration layer *)

Section orchestration.

Variable parse_input_format_string : result string.
Variable parse_output_format_string : result string.
Variable parser_run : string → result FormatNode.
Variable generator_run :
  option FormatNode → option FormatNode → string → result string.

(** An analysis block writes no file. *)
Lemma analyze_files (which : string) (format_string : result string) (w : World) :
  files (analyze parser_run which format_string w).1 = files w.
Proof.
  unfold analyze, try_except, lift_result, logger, mbind, io_bind, mret, io_ret.
  destruct format_string as [text|e]; cbn.
  - destruct (parser_run text) as [node|e]; cbn; [done|].
    by destruct (analyzer_exn e).
  - by destruct (analyzer_exn e).
Qed.

(** A failure of the analyzer with one of the two handled exceptions is
    logged and leaves the node missing. *)
Lemma analyze_handled (which : string) (format_string : result string) (e : exn)
    (w : World) :
  analyzer_exn e = true →
  format_string = Raise e ∨
    (∃ text, format_string = Ok text ∧ parser_run text = Raise e) →
  ∃ w', analyze parser_run which format_string w = (w', Ok None) ∧
        last (logs w') = Some (LogError (which +:+ " analyzer failed") (Some e)).
Proof.
  intros He Hfail.
  unfold analyze, try_except, lift_result, logger, mbind, io_bind, mret, io_ret.
  destruct Hfail as [->|(text & -> & Hparse)]; cbn; [|rewrite Hparse; cbn];
    rewrite He; eexists; (split; [done|]); cbn; by rewrite last_snoc.
Qed.

Lemma prepare_template_generated (dest template : string) (w w1 w2 : World)
    (input_node output_node : option FormatNode) :
  analyze parser_run "input" parse_input_format_string w = (w1, Ok input_node) →
  analyze parser_run "output" parse_output_format_string w1 = (w2, Ok output_node) →
  prepare_template parse_input_format_string parse_output_format_string
    parser_run generator_run dest template w
  = match generator_run input_node output_node template with
    | Ok code =>
        if bool_decide (is_Some (files w2 !! dest))
        then (mkWorld (logs w2 ++ [LogError "file already exists" None]) (files w2), Ok ())
        else (mkWorld (logs w2 ++ [LogInfo "write file"]) (<[dest := code]> (files w2)),
              Ok ())
    | Raise e =>
        if exn_eqb e NotImplementedError
        then (mkWorld (logs w2 ++ [LogError "generator failed" (Some e)]) (files w2), Ok ())
        else (w2, Raise e)
    end.
Proof.
  intros Hin Hout.
  unfold prepare_template, mbind, io_bind. rewrite Hin, Hout.
  unfold try_except, lift_result, logger, dest_exists, write_file, mret, io_ret,
    mbind, io_bind.
  destruct (generator_run input_node output_node template) as [code|e]; cbn.
  - by destruct (bool_decide (is_Some (files w2 !! dest))).
  - by destruct (exn_eqb e NotImplementedError).
Qed.

End orchestration.

(** What the handlers of the loop do, for any generator.  An analyzer failure with [AnalyzerError] or
    [NotImplementedError] is logged and leaves the node missing; the
    generator is called all the same, with the missing node, and its output
    is written when the destination does not exist.  When the generator
    raises [NotImplementedError] for a template, the failure is logged, no
    file is written for that template, and the loop goes on with the
    remaining templates. *)
Lemma prepare_templates_handlers
    (pin pout : result string) (parser : string → result FormatNode)
    (gen : option FormatNode → option FormatNode → string → result string)
    (dest template : string) (rest : list (string * string)) (w : World) :
  (∀ e, analyzer_exn e = true →
        pin = Raise e ∨ (∃ text, pin = Ok text ∧ parser text = Raise e) →
        ∃ w1, analyze parser "input" pin w = (w1, Ok None) ∧
              last (logs w1) = Some (LogError "input analyzer failed" (Some e)) ∧
              files w1 = files w) ∧
  (∀ w1 w2 input_node output_node code,
     analyze parser "input" pin w = (w1, Ok input_node) →
     analyze parser "output" pout w1 = (w2, Ok output_node) →
     gen input_node output_node template = Ok code →
     files w !! dest = None →
     prepare_templates pin pout parser gen ((dest, template) :: rest) w
     = prepare_templates pin pout parser gen rest
         (mkWorld (logs w2 ++ [LogInfo "write file"]) (<[dest := code]> (files w)))) ∧
  (∀ w1 w2 input_node output_node,
     analyze parser "input" pin w = (w1, Ok input_node) →
     analyze parser "output" pout w1 = (w2, Ok output_node) →
     gen input_node output_node template = Raise NotImplementedError →
     prepare_templates pin pout parser gen ((dest, template) :: rest) w
     = prepare_templates pin pout parser gen rest
         (mkWorld (logs w2 ++ [LogError "generator failed" (Some NotImplementedError)])
                  (files w))).
Proof.
  split_and!.
  - intros e He Hfail.
    destruct (analyze_handled parser "input" pin e w He Hfail) as (w1 & Hrun & Hlog).
    exists w1. split_and!; [done|done|].
    pose proof (analyze_files parser "input" pin w) as Hfiles. by rewrite Hrun in Hfiles.
  - intros w1 w2 input_node output_node code Hin Hout Hgen Hdest.
    pose proof (analyze_files parser "input" pin w) as Hf1.
    pose proof (analyze_files parser "output" pout w1) as Hf2.
    rewrite Hin in Hf1. rewrite Hout in Hf2. cbn [fst] in *.
    cbn [prepare_templates]. unfold mbind at 1, io_bind at 1.
    rewrite (prepare_template_generated pin pout parser gen dest template w w1 w2
               input_node output_node Hin Hout), Hgen.
    rewrite Hf2, Hf1, Hdest. done.
  - intros w1 w2 input_node output_node Hin Hout Hgen.
    pose proof (analyze_files parser "input" pin w) as Hf1.
    pose proof (analyze_files parser "output" pout w1) as Hf2.
    rewrite Hin in Hf1. rewrite Hout in Hf2. cbn [fst] in *.
    cbn [prepare_templates]. unfold mbind at 1, io_bind at 1.
    rewrite (prepare_template_generated pin pout parser gen dest template w w1 w2
               input_node output_node Hin Hout), Hgen.
    cbn. by rewrite Hf2, Hf1.
Qed.

(** The entry point [run] of the generator takes one positional node, the
    loop passes two: with [run] as the generator the call itself raises a
    [TypeError], which the handler of the generation step does not catch. *)
Lemma prepare_templates_with_run
    (render : option FormatNode → string → result string)
    (pin pout : result string) (parser : string → result FormatNode)
    (dest template : string) (rest : list (string * string)) (w w1 w2 : World)
    (input_node output_node : option FormatNode) :
  analyze parser "input" pin w = (w1, Ok input_node) →
  analyze parser "output" pout w1 = (w2, Ok output_node) →
  prepare_templates pin pout parser (λ i o t, run render [i; o] t)
    ((dest, template) :: rest) w
  = (w2, Raise TypeError).
Proof.
  intros Hin Hout. cbn [prepare_templates]. unfold mbind at 1, io_bind at 1.
  by rewrite (prepare_template_generated pin pout parser _ dest template w w1 w2
                input_node output_node Hin Hout).
Qed.


(** C9 — A missing tree or a failure of the generator should make the loop
    skip the template and go on.  With the generator's entry point [run] the
    generation step itself fails: the loop calls it with two positional
    nodes, [run] takes one, and the type error of the call is not a
    [NotImplementedError].  It leaves the loop at the first template,
    whether the input analysis succeeded or failed: nothing is written and
    the second template is never reached. *)
Theorem C9_prepare_problem_run_type_error
    (render : option FormatNode → string → result string) :
  let generator_run := λ i o template, run render [i; o] template in
  let table := [("main.cpp", "template.cpp"); ("generate.py", "generate.py")] in
  prepare_templates (Ok "N") (Ok "ans") (λ _, Ok (ItemNode "N" [])) generator_run
    table (mkWorld [] ∅)
  = (mkWorld [LogDebug "input format string"; LogDebug "output format string"] ∅,
     Raise TypeError) ∧
  prepare_templates (Raise AnalyzerError) (Ok "ans") (λ _, Ok (ItemNode "N" []))
    generator_run table (mkWorld [] ∅)
  = (mkWorld [LogError "input analyzer failed" (Some AnalyzerError);
              LogDebug "output format string"] ∅,
     Raise TypeError).
Proof. intros generator_run table. split; by vm_compute. Qed.

(** ** Further properties of the statement emitter *)

Lemma scanner_supported_returns (data : Data) (var : string) :
  scanner_supported (config_get data "scanner") = true →
  ∃ text, _read_int var data = Ok text.
Proof.
  unfold _read_int. destruct (config_get data "scanner") as [| | |s|f]; try done;
    [by eexists| |by eexists].
  cbn. intros Hs%bool_decide_eq_true.
  destruct (String.eqb_spec s "scanf"); [by eexists|].
  destruct (String.eqb_spec s "cin"); [by eexists|].
  destruct (String.eqb_spec s "std::cin"); [by eexists|]. set_solver.
Qed.

Lemma printer_supported_returns (data : Data) (var : string) :
  printer_supported (config_get data "printer") = true →
  ∃ text, _write_int var data = Ok text.
Proof.
  unfold _write_int. destruct (config_get data "printer") as [| | |s|f]; try done;
    [by eexists| |by eexists].
  cbn. intros Hs%bool_decide_eq_true.
  destruct (String.eqb_spec s "scanf"); [by eexists|].
  destruct (String.eqb_spec s "cout"); [by eexists|].
  destruct (String.eqb_spec s "std::cout"); [by eexists|]. set_solver.
Qed.

(** X1 — For an option value that is not a callable, each of the three
    selectors returns a statement exactly when the value is one it accepts
    (unset, or one of the tokens it compares with), and fails with the
    assertion failure and no other exception when it is not.  A callable is
    called, and what the call does is not part of this statement. *)
Theorem X1_selectors_return_iff_supported (data : Data) (var size : string) :
  ((∀ f, config_get data "rep_macro" ≠ VCallable f) →
   ((∃ text, _declare_loop var size data = Ok text) ↔
      rep_macro_supported (config_get data "rep_macro") = true) ∧
   (∀ e, _declare_loop var size data = Raise e → e = AssertionError)) ∧
  ((∀ f, config_get data "scanner" ≠ VCallable f) →
   ((∃ text, _read_int var data = Ok text) ↔
      scanner_supported (config_get data "scanner") = true) ∧
   (∀ e, _read_int var data = Raise e → e = AssertionError)) ∧
  ((∀ f, config_get data "printer" ≠ VCallable f) →
   ((∃ text, _write_int var data = Ok text) ↔
      printer_supported (config_get data "printer") = true) ∧
   (∀ e, _write_int var data = Raise e → e = AssertionError)).
Proof.
  split_and!; intros _; split.
  - split; [|intros Hrep; apply (rep_supported_loops_ok data Hrep)].
    intros [text Htext].
    destruct (rep_macro_supported _) eqn:Hrep; [done|].
    rewrite rep_unsupported_loops_fail in Htext; done.
  - intros e He.
    destruct (rep_macro_supported (config_get data "rep_macro")) eqn:Hrep.
    + destruct (rep_supported_loops_ok data Hrep var size) as [h Hh]. congruence.
    + rewrite rep_unsupported_loops_fail in He; congruence.
  - split; [|by apply scanner_supported_returns].
    intros [text Htext].
    destruct (scanner_supported _) eqn:Hs; [done|].
    rewrite scanner_unsupported_fails in Htext; done.
  - intros e He.
    destruct (scanner_supported (config_get data "scanner")) eqn:Hs.
    + destruct (scanner_supported_returns data var Hs) as [h Hh]. congruence.
    + rewrite scanner_unsupported_fails in He; congruence.
  - split; [|by apply printer_supported_returns].
    intros [text Htext].
    destruct (printer_supported _) eqn:Hp; [done|].
    rewrite printer_unsupported_fails in Htext; done.
  - intros e He.
    destruct (printer_supported (config_get data "printer")) eqn:Hp.
    + destruct (printer_supported_returns data var Hp) as [h Hh]. congruence.
    + rewrite printer_unsupported_fails in He; congruence.
Qed.

Lemma X1_selectors_return_iff_supported_witness :
  let data := mkData scenarioB (cfg [("scanner", VStr "std::cin"); ("printer", VStr "puts");
                                     ("rep_macro", VInt 2)]) in
  (∃ text, _read_int "n" data = Ok text) ∧
  (∀ e, _write_int "ans" data = Raise e → e = AssertionError) ∧
  (∀ e, _declare_loop "i" "n" data = Raise e → e = AssertionError).
Proof.
  intros data. split_and!.
  - destruct (X1_selectors_return_iff_supported data "n" "n") as (_ & Hscanner & _).
    destruct Hscanner as [Hiff _]; [intros f Hf; discriminate Hf|].
    apply Hiff. reflexivity.
  - destruct (X1_selectors_return_iff_supported data "ans" "n") as (_ & _ & Hprinter).
    destruct Hprinter as [_ Hraise]; [intros f Hf; discriminate Hf|]. exact Hraise.
  - destruct (X1_selectors_return_iff_supported data "i" "n") as (Hrep & _).
    destruct Hrep as [_ Hraise]; [intros f Hf; discriminate Hf|]. exact Hraise.
Defined.

(** X2 — [read_input] consults the options [indent], [using_namespace_std]
    and [rep_macro] and no other: setting any other option, to any value,
    changes neither its text nor its failure. *)
Theorem X2_read_input_frame (inp : FormatNode) (c : gmap string pyval)
    (k : string) (v : pyval) (nest : Z) :
  k ≠ "indent" → k ≠ "using_namespace_std" → k ≠ "rep_macro" →
  read_input (mkData inp (<[k := v]> c)) nest = read_input (mkData inp c) nest.
Proof.
  intros Hindent Hstd Hrep.
  unfold read_input, _join_with_indent, config_get_default. cbn [input config].
  rewrite read_input_dfs_insert_ne by done. by rewrite lookup_insert_ne.
Qed.

Lemma X2_read_input_frame_witness :
  read_input (mkData scenarioB (<["printer" := VInt 7]> ∅)) 1
  = read_input (mkData scenarioB ∅) 1.
Proof. apply X2_read_input_frame; intros H; discriminate H. Defined.

Lemma string_app_nil_r (a : string) : a +:+ "" = a.
Proof.
  induction a as [|c a IH]; [done|].
  change (String c a +:+ "") with (String c (a +:+ "")). by rewrite IH.
Qed.

Lemma str_mul_one (unit : string) : str_mul unit 1 = unit.
Proof. unfold str_mul. change (Z.to_nat 1) with 1%nat. apply string_app_nil_r. Qed.

Lemma str_mul_nonpos (unit : string) (n : Z) : n ≤ 0 → str_mul unit n = "".
Proof. intros Hn. unfold str_mul. by replace (Z.to_nat n) with 0%nat by lia. Qed.

(** X3 — [write_output] is the scalar-write statement for [ans] behind one
    indent unit, or behind none when the statement (of a hook) begins with
    the closing marker; the built-in printers always get the unit.  It
    ignores the tree and the start depth, fails with the selector's
    exception when the printer is refused, and with a type error when the
    printer is accepted but the indent unit is not a text. *)
Theorem X3_write_output_outcome (data : Data) (nest : Z) :
  write_output data nest
  = match _write_int "ans" data with
    | Raise e => Raise e
    | Ok statement =>
        match config_get_default data "indent" (VStr "    ") with
        | VStr unit =>
            Ok ((if startswith statement "}" then "" else unit) +:+ statement)
        | _ => Raise TypeError
        end
    end ∧
  (∀ statement,
     (∀ f, config_get data "printer" ≠ VCallable f) →
     _write_int "ans" data = Ok statement → startswith statement "}" = false) ∧
  (∀ tree nest', write_output (mkData tree (config data)) nest' = write_output data nest).
Proof.
  split_and!; [| |done].
  - unfold write_output. destruct (_write_int "ans" data) as [statement|e]; [|done].
    cbn [mbind result_bind app]. unfold _join_with_indent. cbn [fst snd].
    destruct (config_get_default data "indent" (VStr "    ")) as [| | |unit|]; try done.
    rewrite indent_loop_text. cbn [nest_depths zip_with app join snd].
    unfold nest_depth. destruct (startswith statement "}").
    + by rewrite str_mul_nonpos.
    + by rewrite str_mul_one.
  - intros statement Hhook. unfold _write_int.
    destruct (config_get data "printer") as [| | |s|f]; try done.
    + intros [= <-]. done.
    + cbn. destruct (String.eqb s "scanf"); [intros [= <-]; done|].
      destruct (String.eqb s "cout" || String.eqb s "std::cout"); [|done].
      intros [= <-]. by destruct (get_std_cases data) as [-> | ->].
    + by destruct (Hhook f).
Qed.

Lemma X3_write_output_outcome_witness :
  write_output (mkData scenarioB (cfg [("printer", VStr "cout")])) 3
  = Ok "    cout << ans << endl;".
Proof.
  destruct (X3_write_output_outcome (mkData scenarioB (cfg [("printer", VStr "cout")])) 3)
    as (Hout & _ & _).
  rewrite Hout. reflexivity.
Defined.

(** ** Further properties of the indentation engine *)

Lemma str_mul_length (unit : string) (n : Z) :
  String.length (str_mul unit n) = (Z.to_nat n * String.length unit)%nat.
Proof.
  unfold str_mul. induction (Z.to_nat n) as [|k IH]; [done|].
  cbn [Nat.iter nat_rect]. fold (Nat.iter k (String.append unit) "").
  rewrite string_length_app, IH. lia.
Qed.

Lemma nest_depths_app (n : Z) (l1 l2 : list string) :
  nest_depths n (l1 ++ l2) = nest_depths n l1 ++ nest_depths (nest_after n l1) l2.
Proof.
  revert n. induction l1 as [|line l1 IH]; intros n; [done|].
  cbn [app nest_depths]. by rewrite IH.
Qed.

(** X4 — With a text as indent unit the indenter changes no line and drops
    none: its result is the lines, in order and joined by newlines, each
    behind a prefix made of copies of the unit only, as many as the value of
    the nest counter for that line, none when that value is zero or
    negative.  The counter starts at 1. *)
Theorem X4_join_with_indent_text {A : Type} (lines : list string) (a : A)
    (nest : Z) (data : Data) (unit : string) :
  config_get_default data "indent" (VStr "    ") = VStr unit →
  ∃ prefixes,
    _join_with_indent (lines, Ok a) nest data
    = Ok (join newline (zip_with String.append prefixes lines)) ∧
    length prefixes = length lines ∧
    prefixes = map (str_mul unit) (nest_depths 1 lines) ∧
    Forall2 (λ p d, String.length p = (Z.to_nat d * String.length unit)%nat)
            prefixes (nest_depths 1 lines).
Proof.
  intros Hunit. exists (map (str_mul unit) (nest_depths 1 lines)). split_and!.
  - rewrite (join_with_indent_text lines a nest data unit Hunit).
    by rewrite zip_with_fmap_l.
  - by rewrite length_map, nest_depths_length.
  - done.
  - apply Forall2_fmap_l, Forall_Forall2_diag, Forall_forall.
    intros d _. apply str_mul_length.
Qed.

Lemma X4_join_with_indent_text_witness :
  _join_with_indent (["if (x) {"; "y;"; "}"; "}"; "z;"], Ok ()) 5
    (mkData NewlineNode (cfg [("indent", VStr "--")]))
  = Ok (join newline ["--if (x) {"; "----y;"; "--}"; "}"; "z;"]).
Proof.
  destruct (X4_join_with_indent_text ["if (x) {"; "y;"; "}"; "}"; "z;"] () 5
              (mkData NewlineNode (cfg [("indent", VStr "--")])) "--")
    as (prefixes & Hout & _ & -> & _); [reflexivity|].
  rewrite Hout. reflexivity.
Defined.

(** X5 — The failures of the indenter.  An indent unit that is not a text is
    a type error at the first line, and goes unnoticed when there is no
    line; an exception of the line generator comes through once the lines
    yielded before it are indented, and the text built so far is lost. *)
Theorem X5_join_with_indent_failures {A : Type} (lines : list string)
    (r : result A) (nest : Z) (data : Data) :
  ((∀ unit, config_get_default data "indent" (VStr "    ") ≠ VStr unit) →
   _join_with_indent (lines, r) nest data
   = match lines, r with
     | [], Ok _ => Ok ""
     | [], Raise e => Raise e
     | _ :: _, _ => Raise TypeError
     end) ∧
  (∀ unit e,
     config_get_default data "indent" (VStr "    ") = VStr unit →
     r = Raise e →
     _join_with_indent (lines, r) nest data = Raise e).
Proof.
  split.
  - intros Hno. unfold _join_with_indent. cbn [fst snd].
    rewrite indent_loop_no_text by done.
    destruct lines; [|done]. by destruct r.
  - intros unit e Hunit ->. unfold _join_with_indent. cbn [fst snd].
    by rewrite Hunit, indent_loop_text.
Qed.

Lemma X5_join_with_indent_failures_witness :
  _join_with_indent (["x;"], Ok ()) 1 (mkData NewlineNode (cfg [("indent", VInt 4)]))
  = Raise TypeError ∧
  _join_with_indent ([], Ok ()) 1 (mkData NewlineNode (cfg [("indent", VInt 4)]))
  = Ok "" ∧
  _join_with_indent (["x;"], @Raise () (KeyError "n")) 1 (mkData NewlineNode ∅)
  = Raise (KeyError "n").
Proof.
  split_and!.
  - destruct (X5_join_with_indent_failures ["x;"] (Ok ()) 1
                (mkData NewlineNode (cfg [("indent", VInt 4)]))) as [H _].
    apply H. intros unit Hunit. discriminate Hunit.
  - destruct (X5_join_with_indent_failures [] (Ok ()) 1
                (mkData NewlineNode (cfg [("indent", VInt 4)]))) as [H _].
    apply H. intros unit Hunit. discriminate Hunit.
  - destruct (X5_join_with_indent_failures ["x;"] (@Raise () (KeyError "n")) 1
                (mkData NewlineNode ∅)) as [_ H].
    apply (H "    " (KeyError "n")); reflexivity.
Defined.

(** ** Further properties of the input traversal *)

Lemma gen_bind_Ok_inv {L A B : Type} (g : Gen L A) (k : A → Gen L B)
    (lines : list L) (b : B) :
  gen_bind g k = (lines, Ok b) →
  ∃ l1 a l2, g = (l1, Ok a) ∧ k a = (l2, Ok b) ∧ lines = l1 ++ l2.
Proof.
  destruct g as [l1 [a|e]]; cbn; [|done].
  destruct (k a) as [l2 r] eqn:Hk. intros [= <- ->]. by exists l1, a, l2.
Qed.

Lemma gen_bind_Raise_inv {L A B : Type} (g : Gen L A) (k : A → Gen L B)
    (lines : list L) (e : exn) :
  gen_bind g k = (lines, Raise e) →
  g = (lines, Raise e) ∨
  ∃ l1 a l2, g = (l1, Ok a) ∧ k a = (l2, Raise e) ∧ lines = l1 ++ l2.
Proof.
  destruct g as [l1 [a|e']]; cbn; [|intros [= <- <-]; by left].
  destruct (k a) as [l2 r] eqn:Hk. intros [= <- ->]. right. by exists l1, a, l2.
Qed.

Lemma declare_loop_raise (var size : string) (data : Data) (e : exn) :
  _declare_loop var size data = Raise e →
  e = AssertionError ∧ rep_macro_supported (config_get data "rep_macro") = false.
Proof.
  unfold _declare_loop. by destruct (config_get data "rep_macro"); intros [= <-].
Qed.

(** The traversal only adds to the set of declared variables. *)
Lemma read_input_dfs_declared_mono (dims : dict) (data : Data) (node : FormatNode) :
  ∀ declared lines declared',
    _read_input_dfs node declared dims data = (lines, Ok declared') →
    declared ⊆ declared'.
Proof.
  induction node as [name indices| |items IH|name size body IH]
    using FormatNode_ind_nested; intros declared lines declared'.
  - cbn [_read_input_dfs]. case_decide; [by intros [= _ <-]|].
    destruct (dict_lookup name dims); [|done]. intros [= _ <-]. set_solver.
  - by intros [= _ <-].
  - cbn [_read_input_dfs]. revert declared lines.
    induction IH as [|item items Hitem _ IHitems]; intros declared lines;
      [by intros [= _ <-]|].
    intros (l1 & d1 & l2 & Hrun1 & Hrun2 & _)%gen_bind_Ok_inv.
    apply Hitem in Hrun1. apply IHitems in Hrun2. set_solver.
  - cbn [_read_input_dfs]. destruct (_declare_loop name size data); [|done].
    intros (? & [] & ? & _ & (l1 & d1 & l2 & Hrun & Hrest & _)%gen_bind_Ok_inv & _)
      %gen_bind_Ok_inv.
    apply IH in Hrun. cbn in Hrest. by simplify_eq.
Qed.

(** X6 — When the [rep_macro] option is not a callable, the input traversal
    fails in two ways only: with the assertion failure of the loop-header
    selector, at a loop, when the [rep_macro] value is refused; or with a
    key error naming a variable of the tree that is not declared yet and has
    no entry in the dimension table.  (With a callable, what the call does
    and returns comes on top.) *)
Theorem X6_read_input_dfs_failures (dims : dict) (data : Data) (node : FormatNode) :
  (∀ f, config_get data "rep_macro" ≠ VCallable f) →
  ∀ declared lines e,
    _read_input_dfs node declared dims data = (lines, Raise e) →
    (e = AssertionError ∧
     rep_macro_supported (config_get data "rep_macro") = false ∧
     has_loop node = true) ∨
    (∃ name, e = KeyError name ∧ name ∈ item_names node ∧ (name ∉ declared) ∧
             dict_lookup name dims = None).
Proof.
  intros _.
  induction node as [name indices| |items IH|name size body IH]
    using FormatNode_ind_nested; intros declared lines e.
  - cbn [_read_input_dfs item_names]. case_decide as Hin; [done|].
    destruct (dict_lookup name dims) eqn:Hds; [done|]. intros [= <- <-].
    right. exists name. split_and!; [done|set_solver|done|done].
  - done.
  - cbn [_read_input_dfs item_names has_loop]. revert declared lines.
    induction IH as [|item items Hitem _ IHitems]; intros declared lines; [done|].
    cbn [map concat existsb].
    intros [Hrun1|(l1 & d1 & l2 & Hrun1 & Hrun2 & _)]%gen_bind_Raise_inv.
    + destruct (Hitem declared lines e Hrun1)
        as [(-> & Hrep & Hloop)|(x & -> & Hx & Hd & Hds)].
      * left. split_and!; [done|done|]. by rewrite Hloop.
      * right. exists x. split_and!; [done|set_solver|done|done].
    + destruct (IHitems d1 l2 Hrun2) as [(-> & Hrep & Hloop)|(x & -> & Hx & Hd & Hds)].
      * left. split_and!; [done|done|]. rewrite Hloop. apply orb_true_r.
      * right. exists x. split_and!; [done|set_solver| |done].
        apply read_input_dfs_declared_mono in Hrun1. set_solver.
  - cbn [_read_input_dfs item_names has_loop].
    destruct (_declare_loop name size data) as [header|e'] eqn:Hloop.
    + intros [[=]|(? & [] & ? & _ & Hrest & _)]%gen_bind_Raise_inv.
      apply gen_bind_Raise_inv in Hrest as [Hrun|(l1 & d1 & l2 & _ & [=] & _)].
      destruct (IH declared _ e Hrun) as [(-> & Hrep & _)|Hkey]; [by left|by right].
    + intros [= <- <-]. destruct (declare_loop_raise _ _ _ _ Hloop) as [-> Hrep].
      by left.
Qed.

Lemma X6_read_input_dfs_failures_witness :
  (∃ name, KeyError "a" = KeyError name ∧
           name ∈ item_names (SequenceNode [ItemNode "n" []; scenarioB]) ∧
           (name ∉ (∅ : gset string)) ∧
           dict_lookup name [("n", [])] = None).
Proof.
  destruct (X6_read_input_dfs_failures [("n", [])]
              (mkData NewlineNode ∅) (SequenceNode [ItemNode "n" []; scenarioB]))
    with (declared := (∅ : gset string))
         (lines := ["int n;"; scan_line "n"; "for (int i = 0; i < n; ++i) {"])
         (e := KeyError "a")
    as [(Habs & _)|Hkey].
  - intros f Hf. discriminate Hf.
  - reflexivity.
  - discriminate Habs.
  - exact Hkey.
Defined.

Lemma item_paths_names (node : FormatNode) : (item_paths node).*1 = item_names node.
Proof.
  induction node as [name indices| |items IH|name size body IH]
    using FormatNode_ind_nested; [done|done| |done].
  cbn [item_paths item_names].
  induction IH as [|item items Hitem _ IHitems]; [done|].
  cbn [map concat]. by rewrite fmap_app, Hitem, IHitems.
Qed.

(** The read lines of a traced run that returned are the reads of the
    items of the subtree, in traversal order. *)
Lemma traced_reads (dims : dict) (data : Data) (node : FormatNode) :
  ∀ declared lines declared',
    _read_input_dfs_traced node declared dims data = (lines, Ok declared') →
    filter (λ l, is_scalar_read l.1 = true) lines
    = map (λ item, (ScalarRead item.1, scan_line (indexed_path item.1 item.2)))
          (item_paths node).
Proof.
  induction node as [name indices| |items IH|name size body IH]
    using FormatNode_ind_nested; intros declared lines declared'.
  - cbn [_read_input_dfs_traced item_paths]. case_decide; [by intros [= <- _]|].
    destruct (dict_lookup name dims); [|done]. by intros [= <- _].
  - by intros [= <- _].
  - cbn [_read_input_dfs_traced item_paths]. revert declared lines.
    induction IH as [|item items Hitem _ IHitems]; intros declared lines;
      [by intros [= <- _]|].
    intros (l1 & d1 & l2 & Hrun1 & Hrun2 & ->)%gen_bind_Ok_inv.
    cbn [map concat]. rewrite filter_app, map_app.
    by rewrite (Hitem _ _ _ Hrun1), (IHitems _ _ Hrun2).
  - cbn [_read_input_dfs_traced item_paths].
    destruct (_declare_loop name size data); [|done].
    intros (? & [] & ? & [= <-] & (l1 & d1 & l2 & Hrun & Hrest & ->)%gen_bind_Ok_inv & ->)
      %gen_bind_Ok_inv.
    cbn in Hrest. simplify_eq.
    rewrite filter_app, filter_cons_False by done.
    rewrite filter_app, (IH _ _ _ Hrun).
    rewrite filter_cons_False by done. by rewrite filter_nil, !app_nil_r.
Qed.

(** X7 — When the traversal returns (loop headers can be emitted, every
    variable of the subtree has an entry in the table), its read lines are
    the formatted scans of the fully indexed paths [name[i][j]...] of the
    [Item] nodes, one per node and in traversal order, whether or not the
    variable was declared before. *)
Theorem X7_reads_follow_items (data : Data) (dims : dict) (node : FormatNode)
    (declared : gset string) :
  rep_macro_supported (config_get data "rep_macro") = true →
  (∀ x, x ∈ item_names node → is_Some (dict_lookup x dims)) →
  ∃ lines declared',
    _read_input_dfs_traced node declared dims data = (lines, Ok declared') ∧
    _read_input_dfs node declared dims data = (lines.*2, Ok declared') ∧
    filter (λ l, is_scalar_read l.1 = true) lines
    = map (λ item, (ScalarRead item.1, scan_line (indexed_path item.1 item.2)))
          (item_paths node).
Proof.
  intros Hrep Hdims.
  destruct (traced_run dims data (rep_supported_loops_ok data Hrep) node declared Hdims)
    as (lines & declared' & Hrun & _).
  exists lines, declared'. split_and!; [done| |by eapply traced_reads].
  by rewrite traced_erase, Hrun.
Qed.

Lemma X7_reads_follow_items_witness :
  let node := SequenceNode [ItemNode "n" []; LoopNode "i" "n"
                (LoopNode "j" "m" (ItemNode "a" ["i"; "j"])); ItemNode "n" []] in
  ∃ lines,
    (_read_input_dfs_traced node ∅ [("n", []); ("a", ["n"; "m"])]
       (mkData node ∅)).1 = lines ∧
    filter (λ l, is_scalar_read l.1 = true) lines
    = [(ScalarRead "n", scan_line "n"); (ScalarRead "a", scan_line "a[i][j]");
       (ScalarRead "n", scan_line "n")].
Proof.
  intros node.
  destruct (X7_reads_follow_items (mkData node ∅) [("n", []); ("a", ["n"; "m"])] node ∅)
    as (lines & declared' & Hrun & _ & Hreads).
  - reflexivity.
  - intros x Hx. apply dict_lookup_is_Some.
    cbn in *. set_solver.
  - exists lines. split; [by rewrite Hrun|exact Hreads].
Defined.

(** Erasing the levels of the leveled traversal gives the traversal. *)
Lemma leveled_erase (dims : dict) (data : Data) (node : FormatNode) :
  ∀ level declared,
    _read_input_dfs node declared dims data
    = ((_read_input_dfs_leveled node level declared dims data).1.*2,
       (_read_input_dfs_leveled node level declared dims data).2).
Proof.
  induction node as [name indices| |items IH|name size body IH]
    using FormatNode_ind_nested; intros level declared.
  - cbn. case_decide; [done|]. by destruct (dict_lookup name dims).
  - done.
  - cbn [_read_input_dfs _read_input_dfs_leveled]. revert declared.
    induction IH as [|item items Hitem _ IHitems]; intros declared; [done|].
    apply gen_bind_fmap; [apply Hitem|apply IHitems].
  - cbn [_read_input_dfs _read_input_dfs_leveled].
    destruct (_declare_loop name size data) as [header|e]; [|done].
    apply gen_bind_fmap; [done|]. intros _.
    apply gen_bind_fmap; [apply IH|]. intros declared'.
    by apply gen_bind_fmap.
Qed.

Lemma leveled_ok_bind {A B : Type} (n : Z) (g : Gen (Z * string) A)
    (k : A → Gen (Z * string) B) :
  leveled_ok n g → (∀ a, leveled_ok n (k a)) → leveled_ok n (gen_bind g k).
Proof.
  intros (Hlev & Hge & Hback) Hk. destruct g as [l1 [a|e]]; cbn [fst snd gen_bind] in *.
  - specialize (Hk a). destruct (k a) as [l2 r]. destruct Hk as (Hlev2 & Hge2 & Hback2).
    unfold leveled_ok. cbn [fst snd] in *.
    rewrite !fmap_app, nest_depths_app, nest_after_app, (Hback a eq_refl).
    split_and!; [by rewrite Hlev, Hlev2|done|done].
  - split_and!; done.
Qed.

Lemma leveled_ok_nil {A : Type} (n : Z) (r : result A) : leveled_ok n ([], r).
Proof. unfold leveled_ok, nest_after. cbn. split_and!; [done|lia|done]. Qed.

Lemma leveled_ok_plain_line {A : Type} (n : Z) (line : string) (r : result A) :
  startswith line "}" = false → endswith line "{" = false →
  leveled_ok n ([(n, line)], r).
Proof.
  intros Hs He. unfold leveled_ok, nest_after. cbn.
  unfold nest_after_line, nest_depth. rewrite Hs, He.
  split_and!; [done|lia|done].
Qed.

Lemma leveled_ok_loop {A : Type} (n : Z) (header : string) (body : Gen (Z * string) A) :
  startswith header "}" = false →
  leveled_ok (n + 1) body →
  leveled_ok n
    (gen_bind (yield (n, header +:+ " {")) (λ _,
     gen_bind body (λ a,
     gen_bind (yield (n, "}")) (λ _, ([], Ok a))))).
Proof.
  intros Hs (Hlev & Hge & Hback).
  destruct (header_nest n header Hs) as [Hd Ha].
  destruct body as [ls [a|e]]; unfold leveled_ok, nest_after in *;
    cbn [gen_bind yield fst snd app fmap list_fmap nest_depths fold_left] in *;
    rewrite Hd, Ha.
  - rewrite fmap_app, nest_depths_app, fold_left_app.
    fold (nest_after (n + 1) ls.*2). unfold nest_after.
    rewrite (Hback a eq_refl), fmap_app, Hlev.
    cbn [fmap list_fmap nest_depths fold_left fst snd].
    destruct (footer_nest (n + 1)) as [-> ->].
    replace (n + 1 - 1) with n by lia. split_and!; [done|lia|done].
  - rewrite Hlev. split_and!; [done|lia|done].
Qed.

(** Under the convention on loop headers, the indenter's counter follows
    the nesting levels of the traversal. *)
Lemma leveled_follows (dims : dict) (data : Data) (node : FormatNode) :
  (∀ var size header,
     _declare_loop var size data = Ok header → startswith header "}" = false) →
  ∀ declared n, leveled_ok n (_read_input_dfs_leveled node n declared dims data).
Proof.
  intros Hopen.
  induction node as [name indices| |items IH|name size body IH]
    using FormatNode_ind_nested; intros declared n.
  - cbn [_read_input_dfs_leveled]. case_decide.
    + apply leveled_ok_plain_line; [apply scan_line_startswith|apply scan_line_endswith].
    + destruct (dict_lookup name dims) as [ds|]; [|apply leveled_ok_nil].
      apply (leveled_ok_bind n ([_], Ok ()) (λ _, ([_], _))).
      * apply leveled_ok_plain_line;
          [apply declaration_startswith|apply declaration_endswith].
      * intros _. apply leveled_ok_plain_line;
          [apply scan_line_startswith|apply scan_line_endswith].
  - apply leveled_ok_nil.
  - cbn [_read_input_dfs_leveled]. revert declared.
    induction IH as [|item items Hitem _ IHitems]; intros declared.
    + apply leveled_ok_nil.
    + apply leveled_ok_bind; [apply Hitem|apply IHitems].
  - cbn [_read_input_dfs_leveled].
    destruct (_declare_loop name size data) as [header|e] eqn:Hloop;
      [|apply leveled_ok_nil].
    apply leveled_ok_loop; [by eapply Hopen|apply IH].
Qed.

Lemma zip_with_fst_snd {A B C : Type} (f : A → B → C) (l : list (A * B)) :
  zip_with f l.*1 l.*2 = map (λ x, f x.1 x.2) l.
Proof. induction l as [|[a b] l IH]; [done|]. cbn. by rewrite IH. Qed.

Lemma nest_depths_in_values (n : Z) (lines : list string) (d : Z) :
  d ∈ nest_depths n lines → d ∈ nest_values n lines.
Proof.
  revert n. induction lines as [|line lines IH]; intros n; cbn; [done|].
  rewrite !elem_of_cons. intros [->|Hin]; [by left|]. right. right. by apply IH.
Qed.

(** X8 — Indentation follows loop nesting.  When the loop headers keep the
    convention of the indenter and the traversal returns, [read_input]'s
    text is the yielded lines joined by newlines, each behind as many indent
    units as its nesting level: 1 at the top, one more inside each
    enclosing loop, the header and the footer of a loop at the level of the
    loop itself. *)
Theorem X8_indentation_follows_nesting (data : Data) (dims : dict)
    (node : FormatNode) (unit : string) (nest : Z) :
  headers_keep_convention (config_get data "rep_macro") →
  rep_macro_supported (config_get data "rep_macro") = true →
  (∀ x, x ∈ item_names node → is_Some (dict_lookup x dims)) →
  config_get_default data "indent" (VStr "    ") = VStr unit →
  ∃ lines declared,
    _read_input_dfs_leveled node 1 ∅ dims data = (lines, Ok declared) ∧
    _read_input_dfs node ∅ dims data = (lines.*2, Ok declared) ∧
    Forall (λ l, 1 ≤ l.1) lines ∧
    _join_with_indent (_read_input_dfs node ∅ dims data) nest data
    = Ok (join newline (map (λ l, str_mul unit l.1 +:+ l.2) lines)).
Proof.
  intros Hstyle Hrep Hdims Hunit.
  pose proof (headers_open_of_style data Hstyle) as Hopen.
  destruct (traced_run dims data (rep_supported_loops_ok data Hrep) node ∅ Hdims)
    as (tl & declared & Htraced & _).
  pose proof (traced_erase dims data node ∅) as Herase. rewrite Htraced in Herase.
  pose proof (leveled_erase dims data node 1 ∅) as Hlev.
  destruct (_read_input_dfs_leveled node 1 ∅ dims data) as [lines r] eqn:Hrun.
  cbn [fst snd] in *. rewrite Herase in Hlev. injection Hlev as Hlines Hr. subst r.
  exists lines, declared.
  destruct (leveled_follows dims data node Hopen ∅ 1) as (Hdepths & _ & _).
  rewrite Hrun in Hdepths. cbn [fst snd] in Hdepths.
  destruct (traversal_balanced dims data Hopen node ∅ 1) as (Hvals & _).
  split_and!; [done|by rewrite Herase, Hlines| |].
  - apply Forall_forall. intros l Hl.
    assert (l.1 ∈ nest_depths 1 lines.*2) as Hin.
    { rewrite Hdepths. by apply list_elem_of_fmap_2. }
    rewrite Herase in Hvals. cbn [fst] in Hvals. rewrite Hlines in Hvals.
    rewrite Forall_forall in Hvals. by apply Hvals, nest_depths_in_values.
  - rewrite Herase.
    rewrite (join_with_indent_text _ declared nest data unit Hunit).
    by rewrite Hlines, Hdepths, zip_with_fst_snd.
Qed.

Lemma X8_indentation_follows_nesting_witness :
  let node := SequenceNode [ItemNode "n" []; LoopNode "i" "n"
                (LoopNode "j" "m" (ItemNode "a" ["i"; "j"]))] in
  let data := mkData node (cfg [("indent", VStr "-"); ("rep_macro", VStr "REP")]) in
  ∃ lines,
    (_read_input_dfs_leveled node 1 ∅ [("n", []); ("a", ["n"; "m"])] data).1 = lines ∧
    lines.*1 = [1; 1; 1; 2; 3; 3; 2; 1] ∧
    _join_with_indent (_read_input_dfs node ∅ [("n", []); ("a", ["n"; "m"])] data) 1 data
    = Ok (join newline (map (λ l, str_mul "-" l.1 +:+ l.2) lines)).
Proof.
  intros node data.
  destruct (X8_indentation_follows_nesting data [("n", []); ("a", ["n"; "m"])] node "-" 1)
    as (lines & declared & Hrun & _ & _ & Hjoin).
  - reflexivity.
  - reflexivity.
  - intros x Hx. apply dict_lookup_is_Some. cbn in *. set_solver.
  - reflexivity.
  - exists lines. split_and!; [by rewrite Hrun| |exact Hjoin].
    assert ((lines, @Ok (gset string) declared).1 = lines) as <- by done.
    rewrite <- Hrun. reflexivity.
Defined.

(** ** Further properties of the template loop *)

(** An analysis block appends to the log and touches no file; what it
    appends and what it returns do not depend on the world, and it lets
    through no exception of the two kinds it handles. *)
Lemma analyze_outcome (parser : string → result FormatNode) (which : string)
    (format_string : result string) :
  ∃ extra r,
    (∀ w, analyze parser which format_string w
          = (mkWorld (logs w ++ extra) (files w), r)) ∧
    (∀ e, r = Raise e → analyzer_exn e = false).
Proof.
  unfold analyze, try_except, lift_result, logger, mbind, io_bind, mret, io_ret.
  destruct format_string as [text|e]; cbn.
  - destruct (parser text) as [node|e]; cbn.
    + exists [LogDebug (which +:+ " format string")], (Ok (Some node)). done.
    + destruct (analyzer_exn e) eqn:He.
      * exists [LogDebug (which +:+ " format string");
                LogError (which +:+ " analyzer failed") (Some e)], (Ok None).
        split; [|done]. intros w. cbn. by rewrite <- app_assoc.
      * exists [LogDebug (which +:+ " format string")], (Raise e).
        split; [done|]. by intros e' [= <-].
  - destruct (analyzer_exn e) eqn:He.
    + exists [LogError (which +:+ " analyzer failed") (Some e)], (Ok None). done.
    + exists [], (Raise e). split; [|by intros e' [= <-]].
      intros [l f]. cbn. by rewrite app_nil_r.
Qed.

(** One round of the loop: the world it leaves and how it ends. *)
Lemma prepare_template_step
    (pin pout : result string) (parser : string → result FormatNode)
    (gen : option FormatNode → option FormatNode → string → result string)
    (dest template : string) (w : World) :
  ∃ w' r,
    prepare_template pin pout parser gen dest template w = (w', r) ∧
    logs w `prefix_of` logs w' ∧
    (files w' = files w ∨
     ∃ code, files w !! dest = None ∧ files w' = <[dest := code]> (files w) ∧
             r = Ok ()) ∧
    (∀ e, r = Raise e →
          e ≠ NotImplementedError ∧
          (analyzer_exn e = true → ∃ i o, gen i o template = Raise e)) ∧
    (r = Ok () →
     is_Some (files w' !! dest) ∨
     ∃ i o, (analyze parser "input" pin w).2 = Ok i ∧
            (analyze parser "output" pout w).2 = Ok o ∧
            gen i o template = Raise NotImplementedError).
Proof.
  destruct (analyze_outcome parser "input" pin) as (x1 & r1 & Hin & Hr1).
  destruct (analyze_outcome parser "output" pout) as (x2 & r2 & Hout & Hr2).
  destruct r1 as [i|e1].
  2:{ eexists _, _. split_and!.
      - unfold prepare_template, mbind, io_bind. by rewrite Hin.
      - by apply prefix_app_r.
      - by left.
      - intros e [= <-]. specialize (Hr1 e1 eq_refl). split; [|congruence].
        intros ->. done.
      - done. }
  destruct r2 as [o|e2].
  2:{ eexists _, _. split_and!.
      - unfold prepare_template, mbind, io_bind. by rewrite Hin, Hout.
      - cbn. rewrite <- app_assoc. by apply prefix_app_r.
      - by left.
      - intros e [= <-]. specialize (Hr2 e2 eq_refl). split; [|congruence].
        intros ->. done.
      - done. }
  rewrite (prepare_template_generated pin pout parser gen dest template w _ _ i o
             (Hin w) (Hout _)).
  cbn [logs files].
  destruct (gen i o template) as [code|e] eqn:Hgen.
  - case_bool_decide as Hdest.
    + eexists _, _. split_and!; [done| |by left|done|by left].
      cbn. rewrite <- !app_assoc. by apply prefix_app_r.
    + eexists _, _. split_and!; [done| | |done|].
      * cbn. rewrite <- !app_assoc. by apply prefix_app_r.
      * right. exists code. split_and!; [|done|done].
        by apply eq_None_not_Some.
      * intros _. left. cbn. rewrite lookup_insert_eq. by eexists.
  - destruct (exn_eqb e NotImplementedError) eqn:He.
    + eexists _, _. split_and!; [done| |by left|done|].
      * cbn. rewrite <- !app_assoc. by apply prefix_app_r.
      * intros _. right. exists i, o. rewrite Hin, Hout. cbn.
        destruct e; try done.
    + eexists _, _. split_and!; [done| |by left| |done].
      * cbn. rewrite <- !app_assoc. by apply prefix_app_r.
      * intros e' [= <-]. split; [by intros ->|]. intros _. by exists i, o.
Qed.

Lemma analyze_result_world (parser : string → result FormatNode) (which : string)
    (format_string : result string) (w w0 : World) :
  (analyze parser which format_string w).2 = (analyze parser which format_string w0).2.
Proof.
  destruct (analyze_outcome parser which format_string) as (extra & r & Hrun & _).
  by rewrite !Hrun.
Qed.

Lemma prepare_templates_cons
    (pin pout : result string) (parser : string → result FormatNode)
    (gen : option FormatNode → option FormatNode → string → result string)
    (dest template : string) (table : list (string * string)) (w : World) :
  prepare_templates pin pout parser gen ((dest, template) :: table) w
  = match prepare_template pin pout parser gen dest template w with
    | (w1, Ok _) => prepare_templates pin pout parser gen table w1
    | (w1, Raise e) => (w1, Raise e)
    end.
Proof. done. Qed.

Lemma prepare_templates_world
    (pin pout : result string) (parser : string → result FormatNode)
    (gen : option FormatNode → option FormatNode → string → result string)
    (table : list (string * string)) :
  ∀ w,
    files w ⊆ files (prepare_templates pin pout parser gen table w).1 ∧
    logs w `prefix_of` logs (prepare_templates pin pout parser gen table w).1 ∧
    (∀ d, d ∉ table.*1 →
          files (prepare_templates pin pout parser gen table w).1 !! d = files w !! d).
Proof.
  induction table as [|[dest template] table IH]; intros w; [done|].
  rewrite prepare_templates_cons.
  destruct (prepare_template_step pin pout parser gen dest template w)
    as (w1 & r & -> & Hlogs & Hfiles & _).
  assert (files w ⊆ files w1 ∧ ∀ d, d ≠ dest → files w1 !! d = files w !! d) as [Hsub Hother].
  { destruct Hfiles as [->|(code & Hnone & -> & _)]; [done|]. split.
    - by apply insert_subseteq.
    - intros d Hd. by rewrite lookup_insert_ne. }
  destruct r as [[]|e]; cbn [fst].
  - destruct (IH w1) as (Hsub' & Hlogs' & Hother'). split_and!.
    + by etrans.
    + by etrans.
    + intros d Hd. rewrite fmap_cons, not_elem_of_cons in Hd. destruct Hd as [Hne Hd].
      rewrite Hother' by done. by apply Hother.
  - split_and!; [done|done|].
    intros d Hd. rewrite fmap_cons, not_elem_of_cons in Hd. destruct Hd as [Hne _].
    by apply Hother.
Qed.

(** X9 — The template loop never removes or overwrites a file and never
    drops a log record: the files it leaves extend the files it found, the
    log it leaves extends the log it found, and a destination that is not in
    the table is left as it was, however the loop ends. *)
Theorem X9_prepare_templates_keeps_files
    (pin pout : result string) (parser : string → result FormatNode)
    (gen : option FormatNode → option FormatNode → string → result string)
    (table : list (string * string)) (w : World) :
  files w ⊆ files (prepare_templates pin pout parser gen table w).1 ∧
  logs w `prefix_of` logs (prepare_templates pin pout parser gen table w).1 ∧
  (∀ dest code,
     files w !! dest = Some code →
     files (prepare_templates pin pout parser gen table w).1 !! dest = Some code) ∧
  (∀ dest, dest ∉ table.*1 →
     files (prepare_templates pin pout parser gen table w).1 !! dest = files w !! dest).
Proof.
  destruct (prepare_templates_world pin pout parser gen table w) as (Hsub & Hlogs & Hother).
  split_and!; [done|done| |done].
  intros dest code Hdest. by eapply lookup_weaken.
Qed.

Lemma X9_prepare_templates_keeps_files_witness :
  let w0 := mkWorld [] {["main.cpp" := "mine"]} in
  files (prepare_templates (Ok "N") (Ok "ans") (λ _, Ok (ItemNode "N" []))
           (λ _ _ _, Ok "generated")
           [("main.cpp", "template.cpp"); ("generate.py", "generate.py")] w0).1
    !! "main.cpp" = Some "mine".
Proof.
  intros w0.
  destruct (X9_prepare_templates_keeps_files (Ok "N") (Ok "ans")
              (λ _, Ok (ItemNode "N" [])) (λ _ _ _, Ok "generated")
              [("main.cpp", "template.cpp"); ("generate.py", "generate.py")] w0)
    as (_ & _ & Hkept & _).
  apply Hkept. reflexivity.
Defined.

(** X10 — The template loop never ends with [NotImplementedError], whoever
    raised it: the analysis blocks and the generation step both handle it.
    An [AnalyzerError] can only come out of the loop from the generator. *)
Theorem X10_prepare_templates_exceptions
    (pin pout : result string) (parser : string → result FormatNode)
    (gen : option FormatNode → option FormatNode → string → result string)
    (table : list (string * string)) :
  ∀ w w' e,
    prepare_templates pin pout parser gen table w = (w', Raise e) →
    e ≠ NotImplementedError ∧
    (analyzer_exn e = true →
     ∃ i o template, template ∈ table.*2 ∧ gen i o template = Raise e).
Proof.
  induction table as [|[dest template] table IH]; intros w w' e; [done|].
  rewrite prepare_templates_cons.
  destruct (prepare_template_step pin pout parser gen dest template w)
    as (w1 & r & -> & _ & _ & Hraise & _).
  destruct r as [[]|e1].
  - intros Hrest. destruct (IH w1 w' e Hrest) as [Hne Hgen]. split; [done|].
    intros He. destruct (Hgen He) as (i & o & t & Ht & Hrun).
    exists i, o, t. split; [|done]. rewrite fmap_cons. by right.
  - intros [= <- <-]. destruct (Hraise e1 eq_refl) as [Hne Hgen]. split; [done|].
    intros He. destruct (Hgen He) as (i & o & Hrun).
    exists i, o, template. split; [|done]. rewrite fmap_cons. by left.
Qed.

Lemma X10_prepare_templates_exceptions_witness :
  let gen := λ (i o : option FormatNode) (t : string),
    if String.eqb t "template.cpp" then @Raise string NotImplementedError
    else Raise AnalyzerError in
  AnalyzerError ≠ NotImplementedError ∧
  ∃ i o template, template ∈ [("main.cpp", "template.cpp"); ("generate.py", "generate.py")].*2 ∧
                  gen i o template = Raise AnalyzerError.
Proof.
  intros gen.
  destruct (X10_prepare_templates_exceptions (Ok "N") (Raise NotImplementedError)
              (λ _, Raise AnalyzerError) gen
              [("main.cpp", "template.cpp"); ("generate.py", "generate.py")]
              (mkWorld [] ∅)
              (mkWorld [LogDebug "input format string";
                        LogError "input analyzer failed" (Some AnalyzerError);
                        LogError "output analyzer failed" (Some NotImplementedError);
                        LogError "generator failed" (Some NotImplementedError);
                        LogDebug "input format string";
                        LogError "input analyzer failed" (Some AnalyzerError);
                        LogError "output analyzer failed" (Some NotImplementedError)] ∅)
              AnalyzerError) as [Hne Hgen].
  - reflexivity.
  - split; [exact Hne|]. apply Hgen. reflexivity.
Defined.

(** X11 — When the template loop returns, every template of the table was
    dealt with: its destination file exists, or the generator refused the
    template with [NotImplementedError] on the nodes of the two analyses. *)
Theorem X11_prepare_templates_complete
    (pin pout : result string) (parser : string → result FormatNode)
    (gen : option FormatNode → option FormatNode → string → result string)
    (table : list (string * string)) :
  ∀ w w',
    prepare_templates pin pout parser gen table w = (w', Ok ()) →
    ∀ dest template, (dest, template) ∈ table →
      is_Some (files w' !! dest) ∨
      ∃ i o, (analyze parser "input" pin w).2 = Ok i ∧
             (analyze parser "output" pout w).2 = Ok o ∧
             gen i o template = Raise NotImplementedError.
Proof.
  induction table as [|[dest0 template0] table IH]; intros w w' Hrun dest template Hin.
  { by apply elem_of_nil in Hin. }
  revert Hrun. rewrite prepare_templates_cons.
  destruct (prepare_template_step pin pout parser gen dest0 template0 w)
    as (w1 & r & -> & _ & _ & _ & Hdone).
  destruct r as [[]|e1]; [|done]. intros Hrest.
  apply elem_of_cons in Hin as [[= -> ->]|Hin].
  - destruct (Hdone eq_refl) as [[code Hfile]|Hrefused]; [|by right].
    left. exists code.
    destruct (prepare_templates_world pin pout parser gen table w1) as (Hsub & _).
    rewrite Hrest in Hsub. by eapply lookup_weaken.
  - destruct (IH w1 w' Hrest dest template Hin) as [Hfile|(i & o & Hi & Ho & Hgen)];
      [by left|right].
    exists i, o. split_and!; [|  |done].
    + by rewrite (analyze_result_world parser "input" pin w w1).
    + by rewrite (analyze_result_world parser "output" pout w w1).
Qed.

Lemma X11_prepare_templates_complete_witness :
  let gen := λ (i o : option FormatNode) (t : string),
    if String.eqb t "template.cpp" then @Raise string NotImplementedError
    else Ok "code" in
  let w' := mkWorld [LogDebug "input format string"; LogDebug "output format string";
                     LogError "generator failed" (Some NotImplementedError);
                     LogDebug "input format string"; LogDebug "output format string";
                     LogInfo "write file"] {["generate.py" := "code"]} in
  is_Some (files w' !! "generate.py") ∨
  ∃ i o, (analyze (λ _, Ok (ItemNode "N" [])) "input" (Ok "N") (mkWorld [] ∅)).2 = Ok i ∧
         (analyze (λ _, Ok (ItemNode "N" [])) "output" (Ok "ans") (mkWorld [] ∅)).2 = Ok o ∧
         gen i o "generate.py" = Raise NotImplementedError.
Proof.
  intros gen w'.
  apply (X11_prepare_templates_complete (Ok "N") (Ok "ans") (λ _, Ok (ItemNode "N" [])) gen
           [("main.cpp", "template.cpp"); ("generate.py", "generate.py")]
           (mkWorld [] ∅) w').
  - reflexivity.
  - apply elem_of_cons. right. apply elem_of_cons. by left.
Defined.

(** ** Properties of [get_directory] and [prepare_contest] *)

(** The search loop returns the value of the first attribute, in the order
    of the names, whose value is true in Python's sense, and the value of
    its [else] branch when there is none. *)
Lemma for_else_attr_spec (obj : option (gmap string pyval)) (names : list string)
    (otherwise : pyval) :
  (for_else_attr obj names otherwise = otherwise ∧
   Forall (λ n, truthy (getattr obj n) = false) names) ∨
  (∃ before n after,
     names = before ++ n :: after ∧
     Forall (λ n, truthy (getattr obj n) = false) before ∧
     truthy (getattr obj n) = true ∧
     for_else_attr obj names otherwise = getattr obj n).
Proof.
  induction names as [|name names IH]; [by left|].
  cbn [for_else_attr]. destruct (truthy (getattr obj name)) eqn:Hname.
  - right. by exists [], name, names.
  - destruct IH as [[Hout Hall]|(before & n & after & -> & Hbefore & Hn & Hout)].
    + left. split; [done|]. by constructor.
    + right. exists (name :: before), n, after. split_and!; [done| |done|done].
      by constructor.
Qed.

(** X12 — The identifiers [get_directory] puts into the path.  The contest
    looked at is the one passed or, when none is passed, the one the problem
    returns.  The contest identifier is its attribute [contest_id] when that
    is true in Python's sense, else [contest_slug] when that one is, else the
    empty text: it is never [None].  The contest of the problem is asked for
    only when no contest is passed, and its failure is swallowed, leaving
    the empty text.  The problem identifier is the first true attribute
    among the eight names, in their order, and the text made from the path
    of the URL when there is none. *)
Theorem X12_get_directory_identifiers (problem : Problem)
    (contest : option (gmap string pyval)) :
  let params := get_directory_params problem contest in
  (truthy (param_contest_id params) = true ∨ param_contest_id params = VStr "") ∧
  (∀ c, contest = Some c ∨ (contest = None ∧ get_contest problem = Ok c) →
     (truthy (getattr (Some c) "contest_id") = true →
      param_contest_id params = getattr (Some c) "contest_id") ∧
     (truthy (getattr (Some c) "contest_id") = false →
      truthy (getattr (Some c) "contest_slug") = true →
      param_contest_id params = getattr (Some c) "contest_slug") ∧
     (truthy (getattr (Some c) "contest_id") = false →
      truthy (getattr (Some c) "contest_slug") = false →
      param_contest_id params = VStr "")) ∧
  (∀ c other,
     contest = Some c →
     get_directory_params
       (mkProblem (problem_attrs problem) (service_name problem)
                  (service_domain problem) other (url_path problem))
       contest
     = params) ∧
  (contest = None → (∃ e, get_contest problem = Raise e) →
     param_contest_id params = VStr "") ∧
  ((param_problem_id params
    = VStr (replace_char "/" "-" (lstrip_char "/" (url_path problem))) ∧
    Forall (λ n, truthy (getattr (Some (problem_attrs problem)) n) = false)
           problem_id_names) ∨
   (∃ before n after,
      problem_id_names = before ++ n :: after ∧
      Forall (λ n, truthy (getattr (Some (problem_attrs problem)) n) = false) before ∧
      truthy (getattr (Some (problem_attrs problem)) n) = true ∧
      param_problem_id params = getattr (Some (problem_attrs problem)) n)) ∧
  param_service_name params = service_name problem ∧
  param_service_domain params = service_domain problem.
Proof.
  intros params. subst params. unfold get_directory_params.
  cbn [param_contest_id param_problem_id param_service_name param_service_domain].
  split_and!; [| | | |apply for_else_attr_spec|done|done].
  - match goal with
    | |- context [for_else_attr ?o contest_id_names (VStr "")] =>
        destruct (for_else_attr_spec o contest_id_names (VStr ""))
          as [[-> _]|(? & n & ? & _ & _ & Hn & ->)]
    end; [by right|by left].
  - intros c [->|[-> ->]]; (split_and!;
      [intros Hid; cbn [contest_id_names for_else_attr]; by rewrite Hid
      |intros Hid Hslug; cbn [contest_id_names for_else_attr]; by rewrite Hid, Hslug
      |intros Hid Hslug; cbn [contest_id_names for_else_attr]; by rewrite Hid, Hslug]).
  - by intros c other ->.
  - intros -> [e ->]. done.
Qed.

Lemma X12_get_directory_identifiers_witness :
  let problem :=
    mkProblem {["problem_id" := VStr ""; "index" := VStr "A"]} "Codeforces"
              "codeforces.com" (Ok {["contest_id" := VInt 1520]})
              "/problemset/problem/1520/A" in
  param_contest_id (get_directory_params problem None) = VInt 1520 ∧
  param_contest_id
    (get_directory_params problem (Some {["contest_id" := VInt 0; "contest_slug" := VStr "r1"]}))
  = VStr "r1".
Proof.
  intros problem. split.
  - destruct (X12_get_directory_identifiers problem None) as (_ & Hcontest & _).
    destruct (Hcontest {["contest_id" := VInt 1520]}) as (Hid & _).
    + right. split; reflexivity.
    + apply Hid. reflexivity.
  - destruct (X12_get_directory_identifiers problem
                (Some {["contest_id" := VInt 0; "contest_slug" := VStr "r1"]}))
      as (_ & Hcontest & _).
    destruct (Hcontest {["contest_id" := VInt 0; "contest_slug" := VStr "r1"]})
      as (_ & Hslug & _).
    + left. reflexivity.
    + apply Hslug; reflexivity.
Defined.

Lemma replace_char_absent (c d : ascii) (text : string) :
  c ≠ d → c ∉ list_ascii_of_string (replace_char c d text).
Proof.
  intros Hne. induction text as [|a text IH]; cbn; [by intros ?%elem_of_nil|].
  rewrite not_elem_of_cons. split; [|done].
  destruct (Ascii.eqb_spec a c); congruence.
Qed.

Lemma replace_char_length (c d : ascii) (text : string) :
  String.length (replace_char c d text) = String.length text.
Proof. induction text as [|a text IH]; cbn; [done|]. by rewrite IH. Qed.

Lemma lstrip_char_length (c : ascii) (text : string) :
  (String.length (lstrip_char c text) ≤ String.length text)%nat.
Proof.
  induction text as [|a text IH]; cbn; [done|].
  destruct (Ascii.eqb a c); cbn; lia.
Qed.

Lemma lstrip_char_empty (c : ascii) (text : string) :
  lstrip_char c text = "" ↔ Forall (λ a, a = c) (list_ascii_of_string text).
Proof.
  induction text as [|a text IH]; cbn; [done|].
  destruct (Ascii.eqb_spec a c) as [->|Hne].
  - rewrite IH, Forall_cons. naive_solver.
  - rewrite Forall_cons. naive_solver.
Qed.

(** X13 — When none of the eight attributes of the problem is true, the
    problem identifier is made from the path of the URL and is one path
    component: it holds no slash, is no longer than the path, and is empty
    exactly when the path is empty or made of slashes only. *)
Theorem X13_problem_id_fallback (problem : Problem)
    (contest : option (gmap string pyval)) :
  Forall (λ n, truthy (getattr (Some (problem_attrs problem)) n) = false)
         problem_id_names →
  ∃ id,
    param_problem_id (get_directory_params problem contest) = VStr id ∧
    ("/"%char ∉ list_ascii_of_string id) ∧
    (String.length id ≤ String.length (url_path problem))%nat ∧
    (id = "" ↔ Forall (λ a, a = "/"%char) (list_ascii_of_string (url_path problem))).
Proof.
  intros Hall. exists (replace_char "/" "-" (lstrip_char "/" (url_path problem))).
  split_and!.
  - unfold get_directory_params. cbn [param_problem_id].
    match goal with
    | |- for_else_attr ?o ?names ?other = _ =>
        destruct (for_else_attr_spec o names other)
          as [[-> _]|(before & n & after & Hsplit & _ & Hn & _)]
    end; [done|].
    rewrite Hsplit, Forall_app, Forall_cons in Hall. destruct Hall as (_ & Hfalse & _).
    congruence.
  - by apply replace_char_absent.
  - rewrite replace_char_length. apply lstrip_char_length.
  - rewrite <- lstrip_char_empty. split; [|by intros ->].
    intros Hempty. apply (f_equal String.length) in Hempty.
    rewrite replace_char_length in Hempty.
    by destruct (lstrip_char "/" (url_path problem)).
Qed.

Lemma X13_problem_id_fallback_witness :
  let problem :=
    mkProblem {["problem_id" := VStr ""]} "Library Checker" "judge.yosupo.jp"
              (Raise (OtherError "no contest")) "//problem/aplusb/" in
  ∃ id, param_problem_id (get_directory_params problem None) = VStr id ∧
        id = "problem-aplusb-".
Proof.
  intros problem.
  destruct (X13_problem_id_fallback problem None) as (id & Hid & _).
  - repeat constructor.
  - exists id. split; [exact Hid|].
    assert (VStr id = VStr "problem-aplusb-") as [= ->]; [|done].
    rewrite <- Hid. reflexivity.
Defined.

Lemma prepare_contest_app {P : Type} (prepare_problem : P → IO ())
    (l1 l2 : list P) (w : World) :
  prepare_contest prepare_problem (l1 ++ l2) w
  = match prepare_contest prepare_problem l1 w with
    | (w1, Ok _) => prepare_contest prepare_problem l2 w1
    | (w1, Raise e) => (w1, Raise e)
    end.
Proof.
  revert w. induction l1 as [|p l1 IH]; intros w; [done|].
  cbn [app prepare_contest]. unfold mbind, io_bind.
  destruct (prepare_problem p w) as [w1 [[]|e]]; [apply IH|done].
Qed.

(** X14 — [prepare_contest] prepares the problems in order and stops at the
    first one whose preparation raises: the problems before it are
    prepared, the ones after it are not started, the exception comes out
    with the world that problem left. *)
Theorem X14_prepare_contest_stops {P : Type} (prepare_problem : P → IO ())
    (before : list P) (problem : P) (after : list P) (w w1 w2 : World) (e : exn) :
  prepare_contest prepare_problem before w = (w1, Ok ()) →
  prepare_problem problem w1 = (w2, Raise e) →
  prepare_contest prepare_problem (before ++ problem :: after) w = (w2, Raise e).
Proof.
  intros Hbefore Hproblem. rewrite prepare_contest_app, Hbefore.
  cbn [prepare_contest]. unfold mbind, io_bind. by rewrite Hproblem.
Qed.

Lemma X14_prepare_contest_stops_witness :
  let prepare := λ (p : string),
    if String.eqb p "B" then io_raise (OtherError "download failed")
    else logger (LogInfo p) in
  prepare_contest prepare (["A"] ++ "B" :: ["C"]) (mkWorld [] ∅)
  = (mkWorld [LogInfo "A"] ∅, Raise (OtherError "download failed")).
Proof.
  intros prepare.
  apply (X14_prepare_contest_stops prepare ["A"] "B" ["C"] (mkWorld [] ∅)
           (mkWorld [LogInfo "A"] ∅)); reflexivity.
Defined.

(** ** The input block and the parameter list *)

(** The declaration lines of a traced run that returned are those of the
    variables of the subtree that were not declared before, in order of
    first appearance. *)
Lemma traced_declarations (dims : dict) (data : Data) (node : FormatNode) :
  ∀ seen lines declared',
    _read_input_dfs_traced node (list_to_set seen) dims data = (lines, Ok declared') →
    omap declared_name lines.*1 = first_appearances seen (item_names node) ∧
    declared' = list_to_set (seen ++ first_appearances seen (item_names node)).
Proof.
  induction node as [name indices| |items IH|name size body IH]
    using FormatNode_ind_nested; intros seen lines declared'.
  - cbn [_read_input_dfs_traced item_names first_appearances]. case_decide as Hin.
    + intros [= <- <-]. rewrite bool_decide_eq_true_2 by set_solver.
      by rewrite app_nil_r.
    + destruct (dict_lookup name dims); [|done]. intros [= <- <-].
      rewrite bool_decide_eq_false_2 by set_solver.
      split; [done|]. rewrite list_to_set_app_L. set_solver.
  - intros [= <- <-]. by rewrite app_nil_r.
  - cbn [_read_input_dfs_traced item_names]. revert seen lines.
    induction IH as [|item items Hitem _ IHitems]; intros seen lines.
    + intros [= <- <-]. by rewrite app_nil_r.
    + intros (l1 & d1 & l2 & Hrun1 & Hrun2 & ->)%gen_bind_Ok_inv.
      apply Hitem in Hrun1 as [Hl1 ->]. apply IHitems in Hrun2 as [Hl2 ->].
      cbn [map concat]. rewrite first_appearances_app.
      rewrite fmap_app, omap_app, Hl1, Hl2. by rewrite <- app_assoc.
  - cbn [_read_input_dfs_traced item_names].
    destruct (_declare_loop name size data); [|done].
    intros (? & [] & ? & [= <-] & (l1 & d1 & l2 & Hrun & Hrest & ->)%gen_bind_Ok_inv & ->)
      %gen_bind_Ok_inv.
    cbn in Hrest. simplify_eq. apply IH in Hrun as [Hl1 ->].
    split; [|done]. cbn. rewrite fmap_app, omap_app, Hl1. cbn. by rewrite app_nil_r.
Qed.

(** X15 — The input block declares the parameters of the signature: when
    the traversal returns, the variables of its declaration lines, in the
    order of the lines, are the names that [arguments] lists, each once. *)
Theorem X15_declarations_match_arguments (data : Data) :
  rep_macro_supported (config_get data "rep_macro") = true →
  ∃ lines declared,
    _read_input_dfs_traced (input data) ∅ (list_used_items (input data)) data
    = (lines, Ok declared) ∧
    _read_input_dfs (input data) ∅ (list_used_items (input data)) data
    = (lines.*2, Ok declared) ∧
    arguments data = join ", " (omap declared_name lines.*1) ∧
    NoDup (omap declared_name lines.*1).
Proof.
  intros Hrep.
  destruct (traced_run (list_used_items (input data)) data
              (rep_supported_loops_ok data Hrep) (input data) ∅)
    as (lines & declared & Hrun & _); [apply list_used_items_covers|].
  exists lines, declared.
  destruct (traced_declarations (list_used_items (input data)) data (input data)
              [] lines declared Hrun) as [Hdecl _].
  split_and!; [done|by rewrite traced_erase, Hrun| |].
  - unfold arguments. by rewrite Hdecl, list_used_items_keys.
  - rewrite Hdecl.
    apply (first_appearances_NoDup [] (item_names (input data))). constructor.
Qed.

Lemma X15_declarations_match_arguments_witness :
  let data :=
    mkData (SequenceNode [ItemNode "n" []; ItemNode "m" []; NewlineNode;
                          LoopNode "i" "n" (SequenceNode [ItemNode "a" ["i"];
                                                          ItemNode "n" []])]) ∅ in
  arguments data = "n, m, a" ∧
  ∃ lines, (_read_input_dfs_traced (input data) ∅ (list_used_items (input data)) data).1
           = lines ∧
           omap declared_name lines.*1 = ["n"; "m"; "a"].
Proof.
  intros data. split; [reflexivity|].
  destruct (X15_declarations_match_arguments data) as (lines & declared & Hrun & _).
  - reflexivity.
  - exists lines. split; [by rewrite Hrun|].
    assert ((lines, @Ok (gset string) declared).1 = lines) as <- by done.
    rewrite <- Hrun. reflexivity.
Defined.

(** ** Declare-once *)

(** *** Texts as lists of characters *)

Lemma chars_app (a b : string) :
  list_ascii_of_string (a +:+ b) = list_ascii_of_string a ++ list_ascii_of_string b.
Proof.
  induction a as [|c a IH]; [done|].
  change (String c a +:+ b) with (String c (a +:+ b)). cbn. by rewrite IH.
Qed.

Lemma chars_inj (a b : string) :
  list_ascii_of_string a = list_ascii_of_string b → a = b.
Proof.
  intros H. rewrite <- (string_of_list_ascii_of_string a), H.
  apply string_of_list_ascii_of_string.
Qed.

Lemma string_app_inv_tail (a b c : string) : a +:+ c = b +:+ c → a = b.
Proof.
  intros H. apply chars_inj. apply (f_equal list_ascii_of_string) in H.
  rewrite !chars_app in H. by apply app_inv_tail in H.
Qed.

(** A text is cut in one way only at the first occurrence of a character. *)
Lemma split_at_char (c : ascii) (a a' r r' : string) :
  c ∉ list_ascii_of_string a → c ∉ list_ascii_of_string a' →
  a +:+ String c r = a' +:+ String c r' → a = a' ∧ r = r'.
Proof.
  revert a'. induction a as [|e a IH]; intros [|e' a'] Ha Ha'.
  - by intros [= ->].
  - change (String e' a' +:+ String c r') with (String e' (a' +:+ String c r')).
    intros [= -> _]. cbn in Ha'. set_solver.
  - change (String e a +:+ String c r) with (String e (a +:+ String c r)).
    intros [= -> _]. cbn in Ha. set_solver.
  - change (String e a +:+ String c r) with (String e (a +:+ String c r)).
    change (String e' a' +:+ String c r') with (String e' (a' +:+ String c r')).
    intros [= -> Hrest]. cbn in Ha, Ha'.
    destruct (IH a') as [-> ->]; [set_solver|set_solver|done|done].
Qed.

Lemma container_type_chars (q : string) (dims : list string) (c : ascii) :
  q = "" ∨ q = "std::" → c = " "%char ∨ c = "("%char →
  c ∉ list_ascii_of_string (container_type q dims).
Proof.
  intros Hq Hc. induction dims as [|dim dims IH].
  - destruct Hc as [-> | ->]; cbn; set_solver.
  - cbn [container_type]. rewrite !chars_app, !not_elem_of_app.
    split_and!; [|by destruct Hc as [-> | ->]; cbn; set_solver|done
                 |by destruct Hc as [-> | ->]; cbn; set_solver].
    destruct Hq as [-> | ->], Hc as [-> | ->]; cbn; set_solver.
Qed.

(** *** Which lines are declaration statements of a variable *)

Lemma declaration_of_declared (x : string) (ds : list string) (data : Data) :
  declaration_of x
    (container_type (_get_std data) ds +:+ " " +:+ x
       +:+ container_ctor (_get_std data) ds +:+ ";").
Proof. exists (_get_std data), ds. split; [apply get_std_cases|done]. Qed.

Lemma declaration_of_endswith (x text : string) :
  declaration_of x text → endswith text "{" = false.
Proof. intros (q & dims & _ & ->). by drop_prefixes. Qed.

Lemma declaration_of_head (x text : string) :
  declaration_of x text →
  startswith text "i" = true ∨ startswith text "v" = true ∨ startswith text "st" = true.
Proof.
  intros (q & dims & Hq & ->). destruct dims as [|dim dims]; [by left|].
  cbn [container_type]. destruct Hq as [-> | ->]; [right; left|right; right]; done.
Qed.

Lemma scan_line_not_declaration (x path : string) : ¬ declaration_of x (scan_line path).
Proof. intros [H|[H|H]]%declaration_of_head; discriminate H. Qed.

Lemma header_not_declaration (x header : string) : ¬ declaration_of x (header +:+ " {").
Proof. intros H%declaration_of_endswith. by rewrite header_endswith in H. Qed.

Lemma footer_not_declaration (x : string) : ¬ declaration_of x "}".
Proof. intros [H|[H|H]]%declaration_of_head; discriminate H. Qed.

(** The declaration of another variable is no declaration of [x], as long
    as no parenthesis occurs in the two names. *)
Lemma other_declaration_not_declaration (x y : string) (ds : list string) (data : Data) :
  x ≠ y →
  ("("%char ∉ list_ascii_of_string x) → ("("%char ∉ list_ascii_of_string y) →
  ¬ declaration_of x (_declare_variable y ds data).
Proof.
  intros Hne Hx Hy (q & dims & Hq & Heq). rewrite declare_variable_eq in Heq.
  apply (split_at_char " ") in Heq as [Htype Hrest];
    [|apply container_type_chars; [apply get_std_cases|by left]
     |apply container_type_chars; [done|by left]].
  destruct ds as [|d ds], dims as [|dim dims].
  - cbn [container_ctor] in Hrest. change ("" +:+ ";") with ";" in Hrest.
    apply string_app_inv_tail in Hrest. congruence.
  - cbn [container_type] in Htype.
    destruct Hq as [-> | ->]; discriminate Htype.
  - cbn [container_type] in Htype.
    destruct (get_std_cases data) as [Hstd|Hstd]; rewrite Hstd in Htype;
      discriminate Htype.
  - cbn [container_ctor] in Hrest.
    apply (split_at_char "(") in Hrest as [Hname _]; [congruence|done|done].
Qed.

Lemma count_kind_cons (k : line_kind) (l : line_kind * string)
    (lines : list (line_kind * string)) :
  count_kind k (l :: lines) = (count_kind k [l] + count_kind k lines)%nat.
Proof. apply (count_kind_app k [l] lines). Qed.

Lemma count_kind_zero (k : line_kind) (lines : list (line_kind * string)) :
  count_kind k lines = 0%nat → k ∉ lines.*1.
Proof.
  unfold count_kind. induction lines as [|[k' t] lines IH]; [by intros _ ?%elem_of_nil|].
  destruct (decide (line_kind_eqb k' k = true)) as [Heq|Hne].
  - by rewrite filter_cons_True.
  - rewrite filter_cons_False by done. intros Hcount.
    rewrite fmap_cons, not_elem_of_cons. split; [|by apply IH].
    cbn. intros ->. apply Hne. by apply line_kind_eqb_eq.
Qed.

(** *** The traced run *)

Lemma gen_bind_Forall {L A B : Type} (P : L → Prop) (g : Gen L A) (k : A → Gen L B) :
  Forall P g.1 → (∀ a, Forall P (k a).1) → Forall P (gen_bind g k).1.
Proof.
  intros Hg Hk. destruct g as [l1 [a|e]]; cbn in *; [|done].
  specialize (Hk a). destruct (k a) as [l2 r]. by apply Forall_app.
Qed.

Lemma traced_lines_fit (dims : dict) (data : Data) (node : FormatNode) :
  ∀ declared, Forall (line_fits data) (_read_input_dfs_traced node declared dims data).1.
Proof.
  induction node as [name indices| |items IH|name size body IH]
    using FormatNode_ind_nested; intros declared.
  - cbn [_read_input_dfs_traced]. case_decide.
    + repeat constructor. by eexists.
    + destruct (dict_lookup name dims) as [ds|]; [|constructor].
      repeat constructor; by eexists.
  - constructor.
  - cbn [_read_input_dfs_traced]. revert declared.
    induction IH as [|item items Hitem _ IHitems]; intros declared; [constructor|].
    apply gen_bind_Forall; [apply Hitem|apply IHitems].
  - cbn [_read_input_dfs_traced].
    destruct (_declare_loop name size data) as [header|e]; [|constructor].
    apply gen_bind_Forall; [repeat constructor; by eexists|]. intros _.
    apply gen_bind_Forall; [apply IH|]. intros declared'.
    apply gen_bind_Forall; [by repeat constructor|]. intros _. constructor.
Qed.

(** A traced run that returned has the shape [traced_ok] describes. *)
Lemma traced_returned_ok (dims : dict) (data : Data) (node : FormatNode) :
  ∀ declared lines declared',
    _read_input_dfs_traced node declared dims data = (lines, Ok declared') →
    traced_ok dims data (item_names node) declared lines declared'.
Proof.
  induction node as [name indices| |items IH|name size body IH]
    using FormatNode_ind_nested; intros declared lines declared'.
  - cbn [_read_input_dfs_traced item_names]. case_decide as Hin.
    + intros [= <- <-]. by apply traced_ok_item_declared.
    + destruct (dict_lookup name dims) as [ds|] eqn:Hds; [|done].
      intros [= <- <-]. by apply traced_ok_item_fresh.
  - intros [= <- <-]. apply traced_ok_nil.
  - cbn [_read_input_dfs_traced item_names]. revert declared lines.
    induction IH as [|item items Hitem _ IHitems]; intros declared lines.
    + intros [= <- <-]. apply traced_ok_nil.
    + intros (l1 & d1 & l2 & Hrun1 & Hrun2 & ->)%gen_bind_Ok_inv.
      cbn [map concat]. eapply traced_ok_app; [by apply Hitem|by apply IHitems].
  - cbn [_read_input_dfs_traced item_names].
    destruct (_declare_loop name size data) as [header|e]; [|done].
    intros (? & [] & ? & [= <-] & (l1 & d1 & l2 & Hrun & Hrest & ->)%gen_bind_Ok_inv & ->)
      %gen_bind_Ok_inv.
    cbn in Hrest. simplify_eq.
    apply (traced_ok_app dims data [] (item_names body) declared declared declared' [_]);
      [by apply traced_ok_marker; left|].
    rewrite <- (app_nil_r (item_names body)).
    eapply traced_ok_app; [by apply IH|]. by apply traced_ok_marker; right.
Qed.

Lemma other_lines_not_declarations (data : Data) (x : string) (names : list string)
    (part : list (line_kind * string)) :
  Forall (line_fits data) part →
  Declaration x ∉ part.*1 →
  (∀ y, Declaration y ∈ part.*1 → y ∈ names) →
  Forall (λ y, "("%char ∉ list_ascii_of_string y) (x :: names) →
  Forall (λ text, ¬ declaration_of x text) part.*2.
Proof.
  intros Hfit Hx Hnames Hparen. apply Forall_cons in Hparen as [Hxp Hparen].
  rewrite Forall_forall in Hparen.
  induction part as [|[k text] part IH]; [constructor|].
  apply Forall_cons in Hfit as [Hline Hfit].
  rewrite fmap_cons, not_elem_of_cons in Hx. destruct Hx as [Hk Hx]. cbn in Hk.
  rewrite !fmap_cons. constructor.
  - unfold line_fits in Hline. cbn in *. destruct k as [y|y| |].
    + destruct Hline as [ds ->]. apply other_declaration_not_declaration; [congruence|done|].
      apply Hparen, Hnames. set_solver.
    + destruct Hline as [path ->]. apply scan_line_not_declaration.
    + destruct Hline as [header ->]. apply header_not_declaration.
    + rewrite Hline. apply footer_not_declaration.
  - apply IH; [done|done|]. intros y Hy. apply Hnames. set_solver.
Qed.

(** C5 — A variable referenced by at least one [Item] is declared exactly
    once.  The traversal of the input tree returns whenever the loop headers
    can be emitted, and every line sequence it returns has one declaration
    line for the variable: the text [type name ctor;] built from the
    variable's entry in the dimension table, standing right before the
    first read of the variable.  No other line of the sequence is of the
    declaration kind for that variable, and, when no parenthesis occurs in
    the variable names of the tree, no other line is, as a text, a
    declaration statement of that variable. *)
Theorem C5_declare_once (data : Data) (x : string) :
  x ∈ item_names (input data) →
  (rep_macro_supported (config_get data "rep_macro") = true →
   ∃ texts declared,
     _read_input_dfs (input data) ∅ (list_used_items (input data)) data
     = (texts, Ok declared)) ∧
  (∀ texts declared,
     _read_input_dfs (input data) ∅ (list_used_items (input data)) data
     = (texts, Ok declared) →
     ∃ lines ds indices before after,
       _read_input_dfs_traced (input data) ∅ (list_used_items (input data)) data
       = (lines, Ok declared) ∧
       lines.*2 = texts ∧
       dict_lookup x (list_used_items (input data)) = Some ds ∧
       lines = (before
                ++ (Declaration x,
                    container_type (_get_std data) ds +:+ " " +:+ x
                      +:+ container_ctor (_get_std data) ds +:+ ";")
                :: (ScalarRead x, scan_line (indexed_path x indices))
                :: after) ∧
       texts = (before.*2
                ++ (container_type (_get_std data) ds +:+ " " +:+ x
                      +:+ container_ctor (_get_std data) ds +:+ ";")
                :: scan_line (indexed_path x indices)
                :: after.*2) ∧
       declaration_of x
         (container_type (_get_std data) ds +:+ " " +:+ x
            +:+ container_ctor (_get_std data) ds +:+ ";") ∧
       count_kind (Declaration x) lines = 1%nat ∧
       (Declaration x ∉ before.*1) ∧ (Declaration x ∉ after.*1) ∧
       (ScalarRead x ∉ before.*1) ∧
       (Forall (λ y, "("%char ∉ list_ascii_of_string y) (item_names (input data)) →
        Forall (λ text, ¬ declaration_of x text)
               (before.*2 ++ scan_line (indexed_path x indices) :: after.*2))).
Proof.
  intros Hx. split.
  - intros Hrep.
    destruct (traced_run (list_used_items (input data)) data
                (rep_supported_loops_ok data Hrep) (input data) ∅)
      as (lines & declared & Hrun & _); [apply list_used_items_covers|].
    exists lines.*2, declared. by rewrite traced_erase, Hrun.
  - intros texts declared Hreal.
    pose proof (traced_erase (list_used_items (input data)) data (input data) ∅) as Herase.
    pose proof (traced_lines_fit (list_used_items (input data)) data (input data) ∅) as Hfit.
    destruct (_read_input_dfs_traced (input data) ∅ (list_used_items (input data)) data)
      as [lines r] eqn:Hrun.
    cbn [fst snd] in *. rewrite Hreal in Herase. injection Herase as -> <-.
    destruct (traced_returned_ok _ _ _ _ _ _ Hrun) as (_ & Hdecl & _ & Hfirst).
    destruct (Hfirst x) as (Hcount & before & after & indices & ds & Hds & Hlines & Hbefore);
      [set_solver|done|].
    rewrite declare_variable_eq in Hlines.
    assert ((Declaration x ∉ before.*1) ∧ (Declaration x ∉ after.*1)) as [Hb Ha].
    { rewrite Hlines in Hcount.
      rewrite count_kind_app, count_kind_cons, (count_kind_cons _ _ after) in Hcount.
      assert (count_kind (Declaration x) [(Declaration x,
                container_type (_get_std data) ds +:+ " " +:+ x
                  +:+ container_ctor (_get_std data) ds +:+ ";")] = 1%nat) as H1.
      { unfold count_kind. rewrite filter_cons_True; [done|]. cbn. apply String.eqb_refl. }
      rewrite H1 in Hcount. split; apply count_kind_zero; lia. }
    exists lines, ds, indices, before, after.
    split_and!; try done.
    + rewrite Hlines. by rewrite fmap_app.
    + apply declaration_of_declared.
    + intros Hparen.
      assert (Forall (λ y, "("%char ∉ list_ascii_of_string y)
                     (x :: item_names (input data))) as Hparen'.
      { constructor; [|done]. rewrite Forall_forall in Hparen. by apply Hparen. }
      rewrite Hlines in Hfit, Hdecl.
      apply Forall_app in Hfit as [Hfb Hfit].
      apply Forall_cons in Hfit as [_ Hfit]. apply Forall_cons in Hfit as [_ Hfa].
      apply Forall_app. split; [|constructor].
      * eapply other_lines_not_declarations; [done|done| |done].
        intros y Hy. apply Hdecl. set_solver.
      * apply scan_line_not_declaration.
      * eapply other_lines_not_declarations; [done|done| |done].
        intros y Hy. apply Hdecl. set_solver.
Qed.

Lemma C5_declare_once_witness :
  let data :=
    mkData (SequenceNode [ItemNode "n" []; NewlineNode; scenarioB;
                          LoopNode "j" "n" (ItemNode "a" ["j"])]) ∅ in
  ∃ texts declared,
    _read_input_dfs (input data) ∅ (list_used_items (input data)) data
    = (texts, Ok declared) ∧
    ∃ before after indices,
      texts = before ++ "vector<int> a(n, int());"
                     :: scan_line (indexed_path "a" indices) :: after ∧
      Forall (λ text, ¬ declaration_of "a" text)
             (before ++ scan_line (indexed_path "a" indices) :: after).
Proof.
  intros data.
  destruct (C5_declare_once data "a") as [Hreturns Honce].
  - cbn. repeat constructor.
  - destruct Hreturns as (texts & declared & Hrun); [reflexivity|].
    exists texts, declared. split; [exact Hrun|].
    destruct (Honce texts declared Hrun)
      as (lines & ds & indices & before & after & _ & _ & Hds & _ & Htexts & _ & _ &
          _ & _ & _ & Hother).
    assert (ds = ["n"]) as -> by (vm_compute in Hds; congruence).
    exists before.*2, after.*2, indices. split; [exact Htexts|].
    apply Hother. cbn. repeat constructor; cbn; set_solver.
Defined.
